(** * Oura Ring price tracker bot: a shallow embedding of [oura_discord_bot.py]

    The development follows the source file top to bottom:
    - [OuraPriceTracker.extract_price]: the two price patterns, [re.search]
      and the plausibility window;
    - [OuraPriceTracker.check_all_prices]: the retailer table and the
      nested sweep loop;
    - [OuraBotConfig]: the configuration dictionary and its JSON file;
    - the bot commands and the background [price_check_loop], written in a
      small state-and-exception monad over the bot's global state.

    Modelling conventions.
    - Page text is a [string] of 8-bit characters (code points 0..255).  On
      that range Python's [\d] is exactly '0'..'9' and [\s] is the set
      given by [is_space].
    - A price read from a page is [float] of a token with three integer
      digits and at most two fraction digits; it is represented exactly,
      in hundredths of a dollar ([Z]).  Comparing such a value against the
      integer bounds 200 and 600 agrees with the comparison on floats.
    - Numbers typed by the operator are finite numbers: a threshold is a
      rational ([Q]), an interval an integer ([Z]).  Binary rounding and
      the non-finite floats are outside the model.
    - One command runs to completion before the next one starts. *)

From Stdlib Require Import ZArith QArith Qround Ascii String List Lia Bool.
From stdpp Require Import base option list strings gmap fin_maps.

Open Scope string_scope.
Open Scope Z_scope.

(** ** Characters *)

Definition code (c : ascii) : Z := Z.of_N (N_of_ascii c).

(** [\d] on an 8-bit character, with the digit's value. *)
Definition digit_val (c : ascii) : option Z :=
  let n := code c in
  if (48 <=? n) && (n <=? 57) then Some (n - 48) else None.

(** [\s] on an 8-bit character: what [str.isspace] accepts there. *)
Definition is_space (c : ascii) : bool :=
  let n := code c in
  ((9 <=? n) && (n <=? 13)) || ((28 <=? n) && (n <=? 32))
  || (n =? 133) || (n =? 160).

(** ** The price patterns of [extract_price]

    A matcher takes the text from some position on and answers
    [group(1)] as a price in cents when the pattern matches right there. *)

(** [\d{3}] at the head of [s]: the three-digit number and what follows. *)
Definition three_digits (s : string) : option (Z * string) :=
  match s with
  | String a (String b (String c r)) =>
      match digit_val a, digit_val b, digit_val c with
      | Some x, Some y, Some z => Some (100 * x + 10 * y + z, r)
      | _, _, _ => None
      end
  | _ => None
  end.

(** [\.\d{2}] at the head of [s]: the two-digit fraction and what follows. *)
Definition fraction (s : string) : option (Z * string) :=
  match s with
  | String dot (String d (String e r)) =>
      if Ascii.eqb dot "."%char then
        match digit_val d, digit_val e with
        | Some u, Some v => Some (10 * u + v, r)
        | _, _ => None
        end
      else None
  | _ => None
  end.

(** [\s*USD] at the head of [s].  The star is greedy: it first takes the
    white space character and only on failure of the rest gives it back. *)
Fixpoint spaces_usd (s : string) : bool :=
  match s with
  | String c r =>
      (is_space c && spaces_usd r) || String.prefix "USD" s
  | EmptyString => false
  end.

(** [(\d{3}(?:\.\d{2})?)] followed by the continuation [k], which sees the
    rest of the text.  The optional group is greedy: the fraction is tried
    first, and dropped only if the continuation fails after it. *)
Definition amount_then (k : string -> bool) (s : string) : option Z :=
  match three_digits s with
  | Some (whole, r) =>
      match fraction r with
      | Some (cents, r') =>
          if k r' then Some (100 * whole + cents)
          else if k r then Some (100 * whole) else None
      | None => if k r then Some (100 * whole) else None
      end
  | None => None
  end.

(** [r'\$(\d{3}(?:\.\d{2})?)'] *)
Definition dollar_pattern (s : string) : option Z :=
  match s with
  | String c r =>
      if Ascii.eqb c "$"%char then amount_then (fun _ => true) r else None
  | EmptyString => None
  end.

(** [r'(\d{3}(?:\.\d{2})?)\s*USD'] *)
Definition usd_pattern (s : string) : option Z :=
  amount_then spaces_usd s.

Definition patterns : list (string -> option Z) :=
  [dollar_pattern; usd_pattern].

(** [re.search(pattern, text)]: the match at the leftmost position that
    has one. *)
Fixpoint re_search (m : string -> option Z) (text : string) : option Z :=
  match m text with
  | Some price => Some price
  | None =>
      match text with
      | String _ rest => re_search m rest
      | EmptyString => None
      end
  end.

(** [200 <= price <= 600], on cents. *)
Definition plausible (price : Z) : bool :=
  (20000 <=? price) && (price <=? 60000).

(** The [for pattern in patterns] loop of [extract_price]. *)
Fixpoint scan_patterns (ps : list (string -> option Z)) (text : string)
  : option Z :=
  match ps with
  | [] => None
  | m :: ps' =>
      match re_search m text with
      | Some price =>
          if plausible price then Some price else scan_patterns ps' text
      | None => scan_patterns ps' text
      end
  end.

(** What [requests.get] followed by [BeautifulSoup(...).get_text()] gives:
    an exception somewhere in the [try] block, or a status code together
    with the page text. *)
Inductive http_result :=
| Failed
| Response (status : Z) (text : string).

Definition extract_price (r : http_result) : option Z :=
  match r with
  | Failed => None
  | Response status text =>
      if negb (status =? 200) then None else scan_patterns patterns text
  end.

(** ** The retailer table of [OuraPriceTracker.__init__]

    A Python dict keeps its insertion order, and the sweep iterates over
    [self.retailers.items()], so the table is a list of keyed entries. *)

Record retailer_data := {
  name : string;
  base_url : option string;
  base_urls : option (gmap string string);
  colors : list string
}.

Definition amazon : retailer_data := {|
  name := "Amazon";
  base_url := Some "https://www.amazon.com/dp/B0DJCX5KQG";
  base_urls := None;
  colors := ["silver"; "black"; "gold"]
|}.

Definition target : retailer_data := {|
  name := "Target";
  base_url := Some "https://www.target.com/p/oura-ring-4/-/A-93747936";
  base_urls := None;
  colors := ["black"]
|}.

Definition oura : retailer_data := {|
  name := "Oura Official";
  base_url := None;
  base_urls := Some (list_to_map [
    ("silver", "https://ouraring.com/store/rings/oura-ring-4/silver");
    ("black", "https://ouraring.com/store/rings/oura-ring-4/stealth");
    ("gold", "https://ouraring.com/store/rings/oura-ring-4/gold");
    ("rose_gold", "https://ouraring.com/store/rings/oura-ring-4/rose-gold")]);
  colors := ["silver"; "black"; "gold"; "rose_gold"]
|}.

Definition retailers : list (string * retailer_data) :=
  [("amazon", amazon); ("target", target); ("oura", oura)].

(** One price reading, the dict built in [check_all_prices]. *)
Record observation := {
  timestamp : Z;
  retailer : string;
  color : string;
  price : Z;
  url : string
}.

(** The "Determine URL" step.  [None] stands for a URL that is [None];
    every entry of the table without [base_urls] has a [base_url], so
    the lookup [retailer_data['base_url']] never misses. *)
Definition determine_url (retailer_key : string) (r : retailer_data)
  (c : string) : option string :=
  match base_urls r with
  | Some urls =>
      if String.eqb retailer_key "oura" then urls !! c else base_url r
  | None => base_url r
  end.

(** [if not url]: [None] and the empty string are falsy. *)
Definition usable_url (u : option string) : option string :=
  match u with
  | Some "" => None
  | _ => u
  end.

(** ** The sweep: [check_all_prices]

    The network and the wall clock are the world's: [net n u] is what the
    [n]-th request of the process gets when it asks for [u], and
    [clock n] is what [datetime.now()] reads after it.  The sweep threads
    the request counter. *)

Section Tracker.

Variable net : nat -> string -> http_result.
Variable clock : nat -> Z.

(** The body of the inner loop, for one retailer and one tracked colour. *)
Definition visit (retailer_key : string) (r : retailer_data)
  (acc : list observation * nat) (c : string) : list observation * nat :=
  let (results, n) := acc in
  if negb (bool_decide (c ∈ colors r)) then acc
  else
    match usable_url (determine_url retailer_key r c) with
    | None => acc
    | Some u =>
        match extract_price (net n u) with
        | Some p =>
            (* [if price:] a float is truthy unless it is zero *)
            if p =? 0 then (results, S n)
            else ((results ++ [ {| timestamp := clock n; retailer := name r;
                                   color := c; price := p; url := u |} ])%list,
                  S n)
        | None => (results, S n)
        end
    end.

Definition sweep_retailer (tracked_colors : list string)
  (acc : list observation * nat) (entry : string * retailer_data)
  : list observation * nat :=
  fold_left (visit (fst entry) (snd entry)) tracked_colors acc.

Definition check_all_prices (tracked_colors : list string) (n : nat)
  : list observation * nat :=
  fold_left (sweep_retailer tracked_colors) retailers ([], n).

End Tracker.

(** The colour and URL pairs a sweep visits at one retailer, in the order
    it visits them: those that pass both [continue] guards of the loop. *)
Definition targets_of (tracked_colors : list string)
  (entry : string * retailer_data) : list (string * string) :=
  omap (fun c =>
          if bool_decide (c ∈ colors (snd entry)) then
            match usable_url (determine_url (fst entry) (snd entry) c) with
            | Some u => Some (c, u)
            | None => None
            end
          else None)
       tracked_colors.

(** All the targets of a sweep: retailer key, colour, URL. *)
Definition resolve_targets (tracked_colors : list string)
  : list (string * string * string) :=
  flat_map (fun entry =>
              map (fun cu => (fst entry, fst cu, snd cu))
                  (targets_of tracked_colors entry))
           retailers.

(** ** Configuration values and the bot's state *)

(** The JSON values the bot stores in its configuration. *)
Inductive value :=
| VNone
| VBool (b : bool)
| VInt (z : Z)
| VFloat (q : Q)
| VList (l : list string).

(** Python truthiness of [config.get(key)]; a missing key reads [None]. *)
Definition truthy (v : option value) : bool :=
  match v with
  | None | Some VNone => false
  | Some (VBool b) => b
  | Some (VInt z) => negb (z =? 0)
  | Some (VFloat q) => negb (Qeq_bool q 0)
  | Some (VList l) => negb (bool_decide (l = []))
  end.

(** The value as a number, where Python can compare it with a float or
    format it with [:.2f]; [bool] is a subclass of [int]. *)
Definition as_number (v : option value) : option Q :=
  match v with
  | Some (VBool b) => Some (if b then 1%Q else 0%Q)
  | Some (VInt z) => Some (inject_Z z)
  | Some (VFloat q) => Some q
  | _ => None
  end.

(** The value as a sequence of strings, where Python can iterate it. *)
Definition as_colors (v : option value) : option (list string) :=
  match v with
  | Some (VList l) => Some l
  | _ => None
  end.

(** What the bot says, by embed title, with the data the text is made of. *)
Inductive message :=
| AlreadyRunning
| TrackingStarted (interval : option value) (target_price : Q)
    (tracked : list string)
| NotRunning
| TrackingStopped
| InvalidPrice
| TargetPriceUpdated (target_price : Q)
| Checking
| NoPrices
| CurrentPrices (results : list observation) (lowest : option observation)
| InvalidColors (invalid : list string)
| NoColors
| ColorsUpdated (tracked : list string)
| InvalidInterval
| IntervalUpdated (minutes : Z)
| NoHistory
| RecentHistory (recent : list observation)
| PriceAlert (deal : observation) (target_price : Q)
| Everyone.

Inductive exn := IOError | TypeError.

Inductive result (A : Type) :=
| Ok (a : A)
| Raised (e : exn).
Arguments Ok {A} a.
Arguments Raised {A} e.

Record bot := {
  data : gmap string value;            (* config.data *)
  file : option (gmap string value);   (* the content of bot_config.json *)
  writable : bool;                     (* can the file be opened for writing *)
  price_history : list observation;    (* tracker.price_history *)
  loop_running : bool;                 (* price_check_loop.is_running() *)
  outbox : list (Z * message);         (* messages sent, oldest first *)
  requests : nat                       (* HTTP requests made so far *)
}.

Definition with_data (d : gmap string value) (st : bot) : bot :=
  {| data := d; file := file st; writable := writable st;
     price_history := price_history st; loop_running := loop_running st;
     outbox := outbox st; requests := requests st |}.

Definition with_file (f : option (gmap string value)) (st : bot) : bot :=
  {| data := data st; file := f; writable := writable st;
     price_history := price_history st; loop_running := loop_running st;
     outbox := outbox st; requests := requests st |}.

Definition with_writable (w : bool) (st : bot) : bot :=
  {| data := data st; file := file st; writable := w;
     price_history := price_history st; loop_running := loop_running st;
     outbox := outbox st; requests := requests st |}.

Definition with_price_history (h : list observation) (st : bot) : bot :=
  {| data := data st; file := file st; writable := writable st;
     price_history := h; loop_running := loop_running st;
     outbox := outbox st; requests := requests st |}.

Definition with_loop_running (b : bool) (st : bot) : bot :=
  {| data := data st; file := file st; writable := writable st;
     price_history := price_history st; loop_running := b;
     outbox := outbox st; requests := requests st |}.

Definition with_outbox (o : list (Z * message)) (st : bot) : bot :=
  {| data := data st; file := file st; writable := writable st;
     price_history := price_history st; loop_running := loop_running st;
     outbox := o; requests := requests st |}.

Definition with_requests (n : nat) (st : bot) : bot :=
  {| data := data st; file := file st; writable := writable st;
     price_history := price_history st; loop_running := loop_running st;
     outbox := outbox st; requests := n |}.

(** ** Commands: state passing with exceptions

    A command takes the bot's state and gives back a result and the state
    it leaves behind; what was changed before an exception stays changed. *)

Definition M (A : Type) : Type := bot -> result A * bot.

Definition ret {A : Type} (a : A) : M A := fun st => (Ok a, st).

Definition bind {A B : Type} (c : M A) (f : A -> M B) : M B := fun st =>
  match c st with
  | (Ok a, st') => f a st'
  | (Raised e, st') => (Raised e, st')
  end.

Declare Scope bot_scope.
Delimit Scope bot_scope with bot.
Bind Scope bot_scope with M.
Notation "x ← y ; z" := (bind y (fun x => z))
  (at level 20, y at level 100, z at level 200, only parsing) : bot_scope.
Notation "x ;; z" := (bind x (fun _ => z))
  (at level 100, z at level 200, only parsing, right associativity)
  : bot_scope.
Open Scope bot_scope.

Definition raise {A : Type} (e : exn) : M A := fun st => (Raised e, st).

Definition send (ch : Z) (m : message) : M unit := fun st =>
  (Ok (), with_outbox (outbox st ++ [(ch, m)])%list st).

(** [OuraBotConfig.save_config] *)
Definition save_config : M unit := fun st =>
  if writable st then (Ok (), with_file (Some (data st)) st)
  else (Raised IOError, st).

(** [OuraBotConfig.get] *)
Definition get (key : string) : M (option value) := fun st =>
  (Ok (data st !! key), st).

(** [self.data[key] = value] *)
Definition store (key : string) (v : value) : M unit := fun st =>
  (Ok (), with_data (<[key := v]> (data st)) st).

(** [OuraBotConfig.set] *)
Definition set (key : string) (v : value) : M unit :=
  store key v ;; save_config.

Definition defaults : gmap string value :=
  list_to_map [
    ("target_price", VFloat 299);
    ("check_interval", VInt 60);
    ("tracked_colors", VList ["silver"; "black"; "gold"]);
    ("tracking_enabled", VBool false);
    ("alert_channel_id", VNone)].

(** [OuraBotConfig.load_config] *)
Definition load_config : M unit := fun st =>
  match file st with
  | Some d => (Ok (), with_data d st)
  | None => save_config (with_data defaults st)
  end.

(** The process before [OuraBotConfig()] runs, for a given file system. *)
Definition fresh (f : option (gmap string value)) (w : bool) : bot :=
  {| data := ∅; file := f; writable := w; price_history := [];
     loop_running := false; outbox := []; requests := 0%nat |}.

(** [str.lower] on 8-bit characters: 'A'..'Z' and the accented capitals
    of the upper half (all of 0xC0..0xDE but the multiplication sign). *)
Definition lower_char (c : ascii) : ascii :=
  let n := code c in
  if ((65 <=? n) && (n <=? 90))
     || ((192 <=? n) && (n <=? 222) && negb (n =? 215))
  then ascii_of_N (Z.to_N (n + 32)) else c.

Fixpoint lower (s : string) : string :=
  match s with
  | String c r => String (lower_char c) (lower r)
  | EmptyString => EmptyString
  end.

Definition valid_colors : list string :=
  ["silver"; "black"; "gold"; "rose_gold"; "stealth"].

(** [r['price'] <= target_price], the price being in cents. *)
Definition at_most (target_price : Q) (r : observation) : bool :=
  Qle_bool (price r # 100) target_price.

(** [[r for r in results if r['price'] <= target_price]] *)
Definition deals (results : list observation) (target_price : Q)
  : list observation :=
  List.filter (at_most target_price) results.

(** [min(results, key=lambda x: x['price'])]: the first of the cheapest. *)
Fixpoint lowest (results : list observation) : option observation :=
  match results with
  | [] => None
  | r :: rest =>
      match lowest rest with
      | Some m => if price m <? price r then Some m else Some r
      | None => Some r
      end
  end.

(** [tracker.price_history[-10:]] *)
Definition last10 (h : list observation) : list observation :=
  drop (length h - 10) h.

Section Bot.

Variable net : nat -> string -> http_result.
Variable clock : nat -> Z.
(** [bot.get_channel]: the id of the channel found, if there is one. *)
Variable get_channel : value -> option Z.

Definition number (v : option value) : M Q :=
  match as_number v with
  | Some q => ret q
  | None => raise TypeError
  end.

Definition color_list (v : option value) : M (list string) :=
  match as_colors v with
  | Some l => ret l
  | None => raise TypeError
  end.

(** [await tracker.check_all_prices(tracked_colors)]; iterating over
    something that is not a list raises. *)
Definition run_sweep (tracked : option value) : M (list observation) :=
  l ← color_list tracked;
  fun st =>
    let (results, n) := check_all_prices net clock l (requests st) in
    (Ok results, with_requests n st).

Definition is_running : M bool := fun st => (Ok (loop_running st), st).

(** [price_check_loop.start()] *)
Definition loop_start : M unit := fun st =>
  (Ok (), with_loop_running true st).

Definition extend_history (results : list observation) : M unit := fun st =>
  (Ok (), with_price_history (price_history st ++ results)%list st).

Definition get_history : M (list observation) := fun st =>
  (Ok (price_history st), st).

(** [on_ready] *)
Definition on_ready : M unit :=
  enabled ← get "tracking_enabled";
  if truthy enabled then
    running ← is_running;
    if negb running then loop_start else ret ()
  else ret ().

(** [!start] *)
Definition start_tracking (ctx : Z) : M unit :=
  enabled ← get "tracking_enabled";
  if truthy enabled then send ctx AlreadyRunning
  else
    set "tracking_enabled" (VBool true) ;;
    set "alert_channel_id" (VInt ctx) ;;
    running ← is_running;
    (if negb running then loop_start else ret ()) ;;
    interval ← get "check_interval";
    target_price ← get "target_price";
    shown_price ← number target_price;
    tracked ← get "tracked_colors";
    shown_colors ← color_list tracked;
    send ctx (TrackingStarted interval shown_price shown_colors).

(** [!stop] *)
Definition stop_tracking (ctx : Z) : M unit :=
  enabled ← get "tracking_enabled";
  if negb (truthy enabled) then send ctx NotRunning
  else
    set "tracking_enabled" (VBool false) ;;
    send ctx TrackingStopped.

(** [!setprice] *)
Definition set_price (ctx : Z) (p : Q) : M unit :=
  if negb (Qle_bool 100 p) || negb (Qle_bool p 600) then
    send ctx InvalidPrice
  else
    set "target_price" (VFloat p) ;;
    send ctx (TargetPriceUpdated p).

(** [!check] *)
Definition check_now (ctx : Z) : M unit :=
  send ctx Checking ;;
  tracked ← get "tracked_colors";
  results ← run_sweep tracked;
  if bool_decide (results = []) then send ctx NoPrices
  else send ctx (CurrentPrices results (lowest results)).

(** [!colors] *)
Definition set_colors (ctx : Z) (args : list string) : M unit :=
  let colors := map lower args in
  let invalid :=
    List.filter (fun c => negb (bool_decide (c ∈ valid_colors))) colors in
  if negb (bool_decide (invalid = [])) then send ctx (InvalidColors invalid)
  else if bool_decide (colors = []) then send ctx NoColors
  else
    set "tracked_colors" (VList colors) ;;
    send ctx (ColorsUpdated colors).

(** [price_check_loop.restart()]: a running loop is cancelled and started
    again, so it is running afterwards; a loop that is not running is left
    alone. *)
Definition loop_restart : M unit := fun st => (Ok (), st).

(** [!interval] *)
Definition set_interval (ctx : Z) (minutes : Z) : M unit :=
  if (minutes <? 10) || (minutes >? 1440) then send ctx InvalidInterval
  else
    set "check_interval" (VInt minutes) ;;
    enabled ← get "tracking_enabled";
    (if truthy enabled then loop_restart else ret ()) ;;
    send ctx (IntervalUpdated minutes).

(** [!history] *)
Definition show_history (ctx : Z) : M unit :=
  h ← get_history;
  if bool_decide (h = []) then send ctx NoHistory
  else send ctx (RecentHistory (last10 h)).

(** The alert loop of [price_check_loop]: two messages for each deal. *)
Fixpoint send_alerts (ch : Z) (target_price : Q) (ds : list observation)
  : M unit :=
  match ds with
  | [] => ret ()
  | deal :: rest =>
      send ch (PriceAlert deal target_price) ;;
      send ch Everyone ;;
      send_alerts ch target_price rest
  end.

(** One iteration of [price_check_loop]. *)
Definition price_check_loop : M unit :=
  enabled ← get "tracking_enabled";
  if negb (truthy enabled) then ret ()
  else
    tracked ← get "tracked_colors";
    results ← run_sweep tracked;
    if bool_decide (results = []) then ret ()
    else
      extend_history results ;;
      target_price ← get "target_price";
      threshold ← number target_price;
      let found := deals results threshold in
      if bool_decide (found = []) then ret ()
      else
        channel_id ← get "alert_channel_id";
        if truthy channel_id then
          match channel_id ≫= get_channel with
          | Some ch => send_alerts ch threshold found
          | None => ret ()
          end
        else ret ().

(** ** Runs of the bot *)

Inductive command :=
| Ready
| Start (ctx : Z)
| Stop (ctx : Z)
| SetPrice (ctx : Z) (p : Q)
| CheckNow (ctx : Z)
| SetColors (ctx : Z) (args : list string)
| SetInterval (ctx : Z) (minutes : Z)
| History (ctx : Z)
| Tick.

Definition run (c : command) : M unit :=
  match c with
  | Ready => on_ready
  | Start ctx => start_tracking ctx
  | Stop ctx => stop_tracking ctx
  | SetPrice ctx p => set_price ctx p
  | CheckNow ctx => check_now ctx
  | SetColors ctx args => set_colors ctx args
  | SetInterval ctx minutes => set_interval ctx minutes
  | History ctx => show_history ctx
  | Tick => price_check_loop
  end.

(** The states the bot can be in: after start-up, after any command or
    loop iteration, and after the file system changed under it. *)
Inductive reachable : bot -> Prop :=
| reach_start f w st :
    load_config (fresh f w) = (Ok (), st) -> reachable st
| reach_run c st :
    reachable st -> reachable (snd (run c st))
| reach_files f w st :
    reachable st -> reachable (with_writable w (with_file f st)).

End Bot.

(** ** Notions the statements below are phrased with *)

(** The text from position [i] on. *)
Fixpoint skip (i : nat) (s : string) : string :=
  match i, s with
  | O, _ => s
  | S i', String _ r => skip i' r
  | S _, EmptyString => EmptyString
  end.

(** [c] is the match of [m] at position [i], and no earlier position has
    a match: the first match in document order. *)
Definition leftmost (m : string -> option Z) (text : string) (i : nat)
  (c : Z) : Prop :=
  m (skip i text) = Some c /\ forall j, (j < i)%nat -> m (skip j text) = None.

(** The single-shot policy in the specification's words: the first pattern
    with any match fixes the candidate, and a candidate outside the window
    means no signal. *)
Fixpoint first_candidate (ps : list (string -> option Z)) (text : string)
  : option Z :=
  match ps with
  | [] => None
  | m :: ps' =>
      match re_search m text with
      | Some c => Some c
      | None => first_candidate ps' text
      end
  end.

Definition single_shot (text : string) : option Z :=
  match first_candidate patterns text with
  | Some c => if plausible c then Some c else None
  | None => None
  end.

(** The fetch of one target, as the sweep does it. *)
Definition fetch_one (net : nat -> string -> http_result) (clock : nat -> Z)
  (r : retailer_data) (acc : list observation * nat) (cu : string * string)
  : list observation * nat :=
  match extract_price (net (snd acc) (snd cu)) with
  | Some p =>
      if p =? 0 then (fst acc, S (snd acc))
      else ((fst acc ++ [ {| timestamp := clock (snd acc); retailer := name r;
                             color := fst cu; price := p;
                             url := snd cu |} ])%list,
            S (snd acc))
  | None => (fst acc, S (snd acc))
  end.

(** Target order in the specification's words: sources in registration
    order, and within a source its variants in the order the source
    registers them. *)
Definition registration_order_targets (tracked_colors : list string)
  : list (string * string * string) :=
  flat_map (fun entry =>
              omap (fun c =>
                      if bool_decide (c ∈ tracked_colors) then
                        match usable_url
                                (determine_url (fst entry) (snd entry) c) with
                        | Some u => Some (fst entry, c, u)
                        | None => None
                        end
                      else None)
                   (colors (snd entry)))
           retailers.

(** The table entry of a retailer key. *)
Definition retailer_of (retailer_key : string) : retailer_data :=
  default amazon (snd <$> List.find (fun e => String.eqb (fst e) retailer_key)
                                    retailers).

(** The fetch of one resolved target. *)
Definition fetch_target (net : nat -> string -> http_result)
  (clock : nat -> Z) (acc : list observation * nat)
  (t : string * string * string) : list observation * nat :=
  fetch_one net clock (retailer_of (fst (fst t))) acc (snd (fst t), snd t).

(** The URL the table gives for a colour at a retailer. *)
Definition url_of (entry : string * retailer_data) (c : string) : string :=
  default "" (determine_url (fst entry) (snd entry) c).

(** The tracked colours a retailer offers, in the order they are tracked,
    each with its URL. *)
Definition tracked_order_targets (tracked_colors : list string)
  (entry : string * retailer_data) : list (string * string * string) :=
  map (fun c => (fst entry, c, url_of entry c))
      (List.filter (fun c => bool_decide (c ∈ colors (snd entry)))
                   tracked_colors).

(** A network on which every page is the same text. *)
Definition always (text : string) : nat -> string -> http_result :=
  fun _ _ => Response 200 text.

(** A price within the window, in dollars [200 <= price <= 600]. *)
Definition in_range (o : observation) : Prop :=
  20000 <= price o <= 60000.

(** The observations a message reports. *)
Definition reported (m : message) : list observation :=
  match m with
  | CurrentPrices results low =>
      (results ++ match low with Some o => [o] | None => [] end)%list
  | RecentHistory recent => recent
  | PriceAlert deal _ => [deal]
  | _ => []
  end.

(** An alert, as opposed to a reply to a command. *)
Definition is_alert (m : message) : bool :=
  match m with
  | PriceAlert _ _ | Everyone => true
  | _ => false
  end.

(** The observation is at or below the threshold, in dollars. *)
Definition qualifies (target_price : Q) (o : observation) : Prop :=
  (price o # 100 <= target_price)%Q.

(** The setter inputs the specification calls invalid; a colour is
    compared in the lower case the command reads it in. *)
Inductive invalid : command -> Prop :=
| invalid_price ctx p :
    (p < 100 \/ 600 < p)%Q -> invalid (SetPrice ctx p)
| invalid_interval ctx minutes :
    minutes < 10 \/ 1440 < minutes -> invalid (SetInterval ctx minutes)
| invalid_colors ctx args c :
    c ∈ args -> lower c ∉ valid_colors -> invalid (SetColors ctx args).

(** The specific reasons a setter gives when it rejects its input. *)
Definition is_rejection (c : command) (m : message) : Prop :=
  match c, m with
  | SetPrice _ _, InvalidPrice => True
  | SetInterval _ _, InvalidInterval => True
  | SetColors _ args, InvalidColors bad =>
      bad <> [] /\ forall x, x ∈ bad <-> x ∈ map lower args /\ x ∉ valid_colors
  | _, _ => False
  end.

(** The keys [!start] and [!stop] write. *)
Definition run_state_keys : list string :=
  ["tracking_enabled"; "alert_channel_id"].

(** The persisted value of a key. *)
Definition persisted (st : bot) (key : string) : option value :=
  file st ≫= fun d => d !! key.

(** A command keeps the invariant [I], raised or not, and what it
    returns satisfies [Q]. *)
Definition triple (I : bot -> Prop) {A : Type} (c : M A) (Q : A -> Prop)
  : Prop :=
  forall st, I st -> I (snd (c st)) /\ forall a, fst (c st) = Ok a -> Q a.

(** Every observation in the history, and every observation a message
    reports, has its price within the window. *)
Definition history_ok (st : bot) : Prop :=
  Forall in_range (price_history st) /\
  Forall (fun cm => Forall in_range (reported (snd cm))) (outbox st).

(** With respect to [st0], the settings other than those of [keys] are
    as they were, in memory, and on file they are as they were on file or
    as they were in memory. *)
Definition settings_kept (keys : list string) (st0 st : bot) : Prop :=
  forall key, key ∉ keys ->
    data st !! key = data st0 !! key /\
    (persisted st key = persisted st0 key \/
     persisted st key = data st0 !! key).

(** The messages an alert round sends for its deals. *)
Definition alert_messages (ch : Z) (target_price : Q)
  (ds : list observation) : list (Z * message) :=
  flat_map (fun d => [(ch, PriceAlert d target_price); (ch, Everyone)]) ds.

(** The default configuration, tracking switched on from channel 7. *)
Definition tracking_from_7 : bot :=
  snd (start_tracking 7 (snd (load_config (fresh None true)))).

(** ** Further notions *)

(** The character of a decimal digit. *)
Definition digit_char (d : Z) : ascii := ascii_of_N (Z.to_N (48 + d)).

(** How the bot's messages print a price, [f"${price:.2f}"], for a price
    in cents with three integer digits. *)
Definition money (c : Z) : string :=
  String "$"
    (String (digit_char (c / 10000))
       (String (digit_char (c / 1000 mod 10))
          (String (digit_char (c / 100 mod 10))
             (String "."
                (String (digit_char (c / 10 mod 10))
                   (String (digit_char (c mod 10)) "")))))).

(** No dollar sign in the text. *)
Fixpoint dollar_free (s : string) : bool :=
  match s with
  | String c r => negb (Ascii.eqb c "$") && dollar_free r
  | EmptyString => true
  end.

(** What an observation says about where it was read. *)
Definition origin (o : observation) : string * string * string :=
  (retailer o, color o, url o).

(** What a target's observation will say, if the fetch gives a price. *)
Definition target_origin (t : string * string * string)
  : string * string * string :=
  (name (retailer_of (fst (fst t))), snd (fst t), snd t).

(** The configuration and its file agree. *)
Definition in_sync (st : bot) : Prop := file st = Some (data st).

(** A configuration as the bot itself writes it: every setting present,
    of its type and within its bounds. *)
Definition well_formed (d : gmap string value) : Prop :=
  (exists p, d !! "target_price" = Some (VFloat p) /\ (100 <= p <= 600)%Q) /\
  (exists m, d !! "check_interval" = Some (VInt m) /\ 10 <= m <= 1440) /\
  (exists l, d !! "tracked_colors" = Some (VList l) /\ l <> [] /\
             Forall (fun c => c ∈ valid_colors) l) /\
  (exists b, d !! "tracking_enabled" = Some (VBool b)) /\
  (d !! "alert_channel_id" = Some VNone \/
   exists ch, d !! "alert_channel_id" = Some (VInt ch)).

(** The process started again on the files the state leaves behind:
    [OuraBotConfig()] and then [on_ready]. *)
Definition restart (st : bot) : result unit * bot :=
  bind load_config (fun _ => on_ready) (fresh (file st) (writable st)).

(** The configuration keys a command may write. *)
Definition written_keys (c : command) : list string :=
  match c with
  | Start _ => ["tracking_enabled"; "alert_channel_id"]
  | Stop _ => ["tracking_enabled"]
  | SetPrice _ _ => ["target_price"]
  | SetColors _ _ => ["tracked_colors"]
  | SetInterval _ _ => ["check_interval"]
  | Ready | CheckNow _ | History _ | Tick => []
  end.

(** The commands that ask the retailers. *)
Definition sweeps (c : command) : bool :=
  match c with
  | CheckNow _ | Tick => true
  | _ => false
  end.

(** * Properties *)

(** ** The extractor *)

Example extract_dollar :
  extract_price (Response 200 "Now $349.99 only") = Some 34999.
Proof. reflexivity. Qed.

Example extract_usd :
  extract_price (Response 200 "Price: 1349 USD") = Some 34900.
Proof. reflexivity. Qed.

Example extract_four_digits : extract_price (Response 200 "$1299.00") = None.
Proof. reflexivity. Qed.

Example extract_not_found : extract_price (Response 404 "$349.00") = None.
Proof. reflexivity. Qed.

(** Giving back white space never helps [\s*USD]: what follows a white
    space character that was given back is that character, not a 'U'. *)
Lemma spaces_usd_greedy c r :
  is_space c = true -> spaces_usd (String c r) = spaces_usd r.
Proof.
  intros Hc. cbn [spaces_usd]. rewrite Hc. cbn [andb].
  destruct (spaces_usd r); [reflexivity|].
  cbn [orb]. unfold String.prefix.
  destruct (ascii_dec "U"%char c) as [<-|Hne]; [discriminate Hc|].
  destruct c as [[] [] [] [] [] [] [] []]; try reflexivity; contradiction.
Qed.

(** Neither does giving back the fraction: the continuation would have
    to start at the decimal point. *)
Lemma fraction_starts_with_dot r f r' :
  fraction r = Some (f, r') -> exists t, r = String "."%char t.
Proof.
  destruct r as [|dot t]; [discriminate|].
  cbn [fraction]. destruct t as [|d [|e t]]; try discriminate.
  destruct (Ascii.eqb_spec dot "."%char) as [->|]; [eauto|discriminate].
Qed.

Lemma usd_pattern_greedy s :
  usd_pattern s =
    match three_digits s with
    | Some (whole, r) =>
        match fraction r with
        | Some (cents, r') =>
            if spaces_usd r' then Some (100 * whole + cents) else None
        | None => if spaces_usd r then Some (100 * whole) else None
        end
    | None => None
    end.
Proof.
  unfold usd_pattern, amount_then.
  destruct (three_digits s) as [[whole r]|]; [|reflexivity].
  destruct (fraction r) as [[cents r']|] eqn:Hf; [|reflexivity].
  destruct (spaces_usd r'); [reflexivity|].
  destruct (fraction_starts_with_dot _ _ _ Hf) as [t ->].
  reflexivity.
Qed.

(** [re.search] answers the first match in document order. *)
Lemma re_search_leftmost m text c :
  re_search m text = Some c <-> exists i, leftmost m text i c.
Proof.
  induction text as [|a r IH]; cbn [re_search].
  - destruct (m "") as [c'|] eqn:Hm; split.
    + intros [= <-]. exists O. split; [exact Hm|lia].
    + intros [[|i] [Hi Hlt]]; cbn [skip] in Hi; congruence.
    + discriminate.
    + intros [[|i] [Hi Hlt]]; cbn [skip] in Hi; congruence.
  - destruct (m (String a r)) as [c'|] eqn:Hm; split.
    + intros [= <-]. exists O. split; [exact Hm|lia].
    + intros [[|i] [Hi Hlt]].
      * cbn [skip] in Hi. congruence.
      * specialize (Hlt O ltac:(lia)). cbn [skip] in Hlt. congruence.
    + intros Hs. apply IH in Hs as [i [Hi Hlt]].
      exists (S i). split; [exact Hi|].
      intros [|j] Hj; cbn [skip]; [exact Hm|]. apply Hlt. lia.
    + intros [[|i] [Hi Hlt]].
      * cbn [skip] in Hi. congruence.
      * apply IH. exists i. split; [exact Hi|].
        intros j Hj. apply (Hlt (S j)). lia.
Qed.

Lemma leftmost_unique m text i c i' c' :
  leftmost m text i c -> leftmost m text i' c' -> i = i' /\ c = c'.
Proof.
  intros [Hi Hlt] [Hi' Hlt'].
  destruct (lt_eq_lt_dec i i') as [[Hl| ->]|Hl].
  - rewrite (Hlt' _ Hl) in Hi. discriminate.
  - split; congruence.
  - rewrite (Hlt _ Hl) in Hi'. discriminate.
Qed.

Lemma re_search_none m text :
  re_search m text = None -> forall i c, ~ leftmost m text i c.
Proof.
  intros Hs i c Hl.
  assert (re_search m text = Some c) by (apply re_search_leftmost; eauto).
  congruence.
Qed.

(** C1, as the specification has it, fails: when the first match of the
    dollar pattern is outside the window, the loop goes on to the USD
    pattern.  On this page the single-shot policy gives no signal and
    [extract_price] answers 349. *)
Lemma extract_price_tries_next_pattern :
  single_shot "$999.00 or 349 USD" = None /\
  extract_price (Response 200 "$999.00 or 349 USD") = Some 34900.
Proof. split; reflexivity. Qed.

(** C1, amended: on every page that was fetched with status 200,
    [extract_price] considers of each pattern only its first match in
    document order, and answers the first of these candidates, in pattern
    priority, that lies within [200, 600].  So the answer is [p] exactly
    when [p] is within the window and either is the first dollar match, or
    the dollar pattern has no first match within the window and [p] is the
    first USD match.  A later match of the same pattern is never tried; a
    later pattern is. *)
Theorem extract_price_first_plausible_candidate text p :
  extract_price (Response 200 text) = Some p <->
  plausible p = true /\
  ((exists i, leftmost dollar_pattern text i p) \/
   ((forall i c, leftmost dollar_pattern text i c -> plausible c = false) /\
    exists i, leftmost usd_pattern text i p)).
Proof.
  cbn [extract_price Z.eqb Pos.eqb negb patterns scan_patterns].
  destruct (re_search dollar_pattern text) as [c1|] eqn:H1.
  - apply re_search_leftmost in H1 as [i1 H1].
    destruct (plausible c1) eqn:Hp1.
    + split.
      * intros [= <-]. split; [exact Hp1|]. left. eauto.
      * intros [Hp [[i Hi]|[Hno _]]].
        -- destruct (leftmost_unique _ _ _ _ _ _ H1 Hi) as [_ ->]. reflexivity.
        -- rewrite (Hno _ _ H1) in Hp1. discriminate.
    + destruct (re_search usd_pattern text) as [c2|] eqn:H2.
      * apply re_search_leftmost in H2 as [i2 H2].
        destruct (plausible c2) eqn:Hp2; split.
        -- intros [= <-]. split; [exact Hp2|]. right. split; [|eauto].
           intros i c Hi.
           destruct (leftmost_unique _ _ _ _ _ _ H1 Hi) as [_ <-]. exact Hp1.
        -- intros [Hp [[i Hi]|[_ [i Hi]]]].
           ++ destruct (leftmost_unique _ _ _ _ _ _ H1 Hi) as [_ ->]. congruence.
           ++ destruct (leftmost_unique _ _ _ _ _ _ H2 Hi) as [_ ->]. reflexivity.
        -- discriminate.
        -- intros [Hp [[i Hi]|[_ [i Hi]]]].
           ++ destruct (leftmost_unique _ _ _ _ _ _ H1 Hi) as [_ ->]. congruence.
           ++ destruct (leftmost_unique _ _ _ _ _ _ H2 Hi) as [_ ->]. congruence.
      * split; [discriminate|].
        intros [Hp [[i Hi]|[_ [i Hi]]]].
        -- destruct (leftmost_unique _ _ _ _ _ _ H1 Hi) as [_ ->]. congruence.
        -- exfalso. exact (re_search_none _ _ H2 _ _ Hi).
  - destruct (re_search usd_pattern text) as [c2|] eqn:H2.
    + apply re_search_leftmost in H2 as [i2 H2].
      destruct (plausible c2) eqn:Hp2; split.
      * intros [= <-]. split; [exact Hp2|]. right. split; [|eauto].
        intros i c Hi. exfalso. exact (re_search_none _ _ H1 _ _ Hi).
      * intros [Hp [[i Hi]|[_ [i Hi]]]].
        -- exfalso. exact (re_search_none _ _ H1 _ _ Hi).
        -- destruct (leftmost_unique _ _ _ _ _ _ H2 Hi) as [_ ->]. reflexivity.
      * discriminate.
      * intros [Hp [[i Hi]|[_ [i Hi]]]].
        -- exfalso. exact (re_search_none _ _ H1 _ _ Hi).
        -- destruct (leftmost_unique _ _ _ _ _ _ H2 Hi) as [_ ->]. congruence.
    + split; [discriminate|].
      intros [Hp [[i Hi]|[_ [i Hi]]]].
      * exfalso. exact (re_search_none _ _ H1 _ _ Hi).
      * exfalso. exact (re_search_none _ _ H2 _ _ Hi).
Qed.

(** The second dollar amount of a page is never looked at. *)
Example extract_price_no_second_match :
  extract_price (Response 200 "$999.00 or $349") = None.
Proof. reflexivity. Qed.

(** Whatever [extract_price] answers lies within the window. *)
Lemma scan_patterns_plausible ps text p :
  scan_patterns ps text = Some p -> plausible p = true.
Proof.
  induction ps as [|m ps IH]; cbn [scan_patterns]; [discriminate|].
  destruct (re_search m text) as [c|]; [|exact IH].
  destruct (plausible c) eqn:Hc; [|exact IH].
  intros [= <-]. exact Hc.
Qed.

Lemma extract_price_plausible r p :
  extract_price r = Some p -> 20000 <= p <= 60000.
Proof.
  destruct r as [|status text]; cbn [extract_price]; [discriminate|].
  destruct (negb (status =? 200)); [discriminate|].
  intros H. apply scan_patterns_plausible in H.
  unfold plausible in H. lia.
Qed.

(** ** The sweep *)

Section TrackerFacts.

Variable net : nat -> string -> http_result.
Variable clock : nat -> Z.

(** The inner loop visits the targets of the retailer, in order. *)
Lemma sweep_retailer_targets tracked entry acc :
  sweep_retailer net clock tracked acc entry =
  fold_left (fetch_one net clock (snd entry)) (targets_of tracked entry) acc.
Proof.
  unfold sweep_retailer, targets_of.
  revert acc. induction tracked as [|c tracked IH]; intros acc; [reflexivity|].
  cbn [fold_left omap list_omap]. rewrite IH. clear IH.
  destruct acc as [results n]. unfold visit.
  destruct (bool_decide (c ∈ colors (snd entry))); cbn [negb]; [|reflexivity].
  destruct (usable_url (determine_url (fst entry) (snd entry) c)) as [u|];
    [|reflexivity].
  cbn [fold_left]. reflexivity.
Qed.

Lemma fold_fetch_one_target key r (cus : list (string * string)) acc :
  retailer_of key = r ->
  fold_left (fetch_target net clock)
            (map (fun cu => (key, fst cu, snd cu)) cus) acc =
  fold_left (fetch_one net clock r) cus acc.
Proof.
  intros <-. revert acc.
  induction cus as [|[c u] cus IH]; intros acc; [reflexivity|].
  cbn [map fold_left]. rewrite IH. reflexivity.
Qed.

(** The sweep fetches the resolved targets one after the other. *)
Lemma check_all_prices_targets tracked n :
  check_all_prices net clock tracked n =
  fold_left (fetch_target net clock) (resolve_targets tracked) ([], n).
Proof.
  unfold check_all_prices, resolve_targets, retailers.
  cbn [fold_left flat_map].
  rewrite !sweep_retailer_targets, app_nil_r, !fold_left_app.
  rewrite (fold_fetch_one_target "amazon" amazon) by reflexivity.
  rewrite (fold_fetch_one_target "target" target) by reflexivity.
  rewrite (fold_fetch_one_target "oura" oura) by reflexivity.
  reflexivity.
Qed.

Lemma fetch_one_in_range r acc cu :
  Forall in_range (fst acc) ->
  Forall in_range (fst (fetch_one net clock r acc cu)).
Proof.
  intros Hacc. unfold fetch_one.
  destruct (extract_price (net (snd acc) (snd cu))) as [p|] eqn:Hp;
    [|exact Hacc].
  destruct (p =? 0); [exact Hacc|]. cbn [fst].
  apply Forall_app. split; [exact Hacc|].
  constructor; [|constructor].
  unfold in_range. cbn [price]. exact (extract_price_plausible _ _ Hp).
Qed.

Lemma fold_fetch_target_in_range ts acc :
  Forall in_range (fst acc) ->
  Forall in_range (fst (fold_left (fetch_target net clock) ts acc)).
Proof.
  revert acc. induction ts as [|t ts IH]; intros acc Hacc; [exact Hacc|].
  cbn [fold_left]. apply IH. unfold fetch_target.
  apply fetch_one_in_range. exact Hacc.
Qed.

(** Every observation of a sweep has its price within the window. *)
Lemma check_all_prices_in_range tracked n :
  Forall in_range (fst (check_all_prices net clock tracked n)).
Proof.
  rewrite check_all_prices_targets.
  apply fold_fetch_target_in_range. constructor.
Qed.

End TrackerFacts.

(** Wherever a retailer lists a colour, the table has a URL for it. *)
Lemma listed_colour_has_url entry c :
  entry ∈ retailers -> c ∈ colors (snd entry) ->
  usable_url (determine_url (fst entry) (snd entry) c) = Some (url_of entry c)
  /\ url_of entry c <> "".
Proof.
  unfold retailers. intros He Hc.
  repeat (apply elem_of_cons in He as [->|He]);
    [| | |apply elem_of_nil in He; contradiction];
    cbn [snd colors amazon target oura] in Hc;
    repeat (apply elem_of_cons in Hc as [->|Hc]);
    try (apply elem_of_nil in Hc; contradiction);
    split; (vm_compute; congruence).
Qed.

Lemma targets_of_tracked_order tracked entry :
  entry ∈ retailers ->
  map (fun cu => (fst entry, fst cu, snd cu)) (targets_of tracked entry) =
  tracked_order_targets tracked entry.
Proof.
  intros He. unfold targets_of, tracked_order_targets.
  induction tracked as [|c tracked IH]; [reflexivity|].
  cbn [omap list_omap List.filter].
  destruct (bool_decide (c ∈ colors (snd entry))) eqn:Hc.
  - apply bool_decide_eq_true in Hc.
    destruct (listed_colour_has_url entry c He Hc) as [-> _].
    cbn [map fst snd]. f_equal. exact IH.
  - exact IH.
Qed.

(** C7, as the specification has it, fails: within a retailer the targets
    come in the order the colours are tracked, not in the order the
    retailer lists them.  With gold tracked before silver, Amazon is
    asked for gold first, although it lists silver first. *)
Lemma resolve_targets_not_registration_order :
  map fst (resolve_targets ["gold"; "silver"]) =
    [("amazon", "gold"); ("amazon", "silver");
     ("oura", "gold"); ("oura", "silver")] /\
  map fst (registration_order_targets ["gold"; "silver"]) =
    [("amazon", "silver"); ("amazon", "gold");
     ("oura", "silver"); ("oura", "gold")] /\
  map (fun o => (retailer o, color o))
      (fst (check_all_prices (always "$349") (fun _ => 0)
                             ["gold"; "silver"] 0)) =
    [("Amazon", "gold"); ("Amazon", "silver");
     ("Oura Official", "gold"); ("Oura Official", "silver")] /\
  resolve_targets ["gold"; "silver"] <>
    registration_order_targets ["gold"; "silver"].
Proof.
  split; [reflexivity|]. split; [reflexivity|]. split; [reflexivity|].
  vm_compute. discriminate.
Qed.

(** C7, amended: the targets of a sweep are a function of the tracked
    colours alone, and the sweep fetches them in this order: retailers in
    the order of the table (Amazon, Target, Oura), and within a retailer
    the tracked colours it lists, in the order they are tracked,
    repetitions included. *)
Theorem resolve_targets_tracked_order net clock tracked n :
  resolve_targets tracked =
    (tracked_order_targets tracked ("amazon", amazon)
     ++ tracked_order_targets tracked ("target", target)
     ++ tracked_order_targets tracked ("oura", oura))%list /\
  check_all_prices net clock tracked n =
    fold_left (fetch_target net clock) (resolve_targets tracked) ([], n).
Proof.
  split; [|apply check_all_prices_targets].
  unfold resolve_targets, retailers. cbn [flat_map].
  rewrite app_nil_r.
  rewrite !targets_of_tracked_order; [reflexivity| | |];
    unfold retailers; set_solver.
Qed.

(** No retailer lists the colour stealth. *)
Lemma stealth_not_listed :
  Forall (fun entry => "stealth" ∉ colors (snd entry)) retailers.
Proof.
  unfold retailers.
  repeat constructor; cbn [snd colors amazon target oura];
    intros H; repeat (apply elem_of_cons in H as [H|H]; [discriminate H|]);
    apply elem_of_nil in H; exact H.
Qed.

Lemma targets_of_stealth tracked entry :
  Forall (fun c => c = "stealth") tracked ->
  "stealth" ∉ colors (snd entry) ->
  targets_of tracked entry = [].
Proof.
  intros Hall Hno. unfold targets_of.
  induction Hall as [|c tracked -> _ IH]; [reflexivity|].
  cbn [omap list_omap]. rewrite bool_decide_eq_false_2 by exact Hno.
  exact IH.
Qed.

(** ** Alert evaluation *)

Lemma at_most_qualifies t o : at_most t o = true <-> qualifies t o.
Proof. unfold at_most, qualifies. apply Qle_bool_iff. Qed.

Lemma deals_elem_of results t o :
  o ∈ deals results t <-> o ∈ results /\ qualifies t o.
Proof.
  unfold deals. rewrite !list_elem_of_In, filter_In, at_most_qualifies.
  reflexivity.
Qed.

Lemma deals_sublist results t : sublist (deals results t) results.
Proof.
  unfold deals. induction results as [|r results IH]; cbn [List.filter].
  - constructor.
  - destruct (at_most t r); [apply sublist_skip|apply sublist_cons]; exact IH.
Qed.

Lemma deals_greatest results t l :
  sublist l results -> Forall (qualifies t) l -> sublist l (deals results t).
Proof.
  unfold deals. induction 1 as [|x l1 l2 _ IH|x l1 l2 _ IH];
    intros Hall; cbn [List.filter].
  - constructor.
  - apply Forall_cons in Hall as [Hx Hall].
    apply at_most_qualifies in Hx. rewrite Hx.
    apply sublist_skip, IH, Hall.
  - destruct (at_most t x); [apply sublist_cons|]; apply IH, Hall.
Qed.

Lemma deals_all_qualify results t : Forall (qualifies t) (deals results t).
Proof.
  apply Forall_forall. intros o Ho. apply deals_elem_of in Ho as [_ Ho].
  exact Ho.
Qed.

(** C4: for every sequence of observations and every threshold, the alert
    evaluation of [price_check_loop] answers exactly the observations with
    [price <= target_price], in their input order: the answer is a
    subsequence of the input, it holds an observation if and only if the
    input holds it and its price is at most the threshold, and every
    subsequence of the input made of such observations is a subsequence of
    the answer.  The answer is a function of the two arguments alone, and
    evaluating the answer again changes nothing. *)
Theorem deals_exact_subsequence results t :
  sublist (deals results t) results /\
  (forall o, o ∈ deals results t <-> o ∈ results /\ qualifies t o) /\
  (forall l, sublist l results -> Forall (qualifies t) l ->
             sublist l (deals results t)) /\
  deals (deals results t) t = deals results t.
Proof.
  split; [apply deals_sublist|].
  split; [apply deals_elem_of|].
  split; [apply deals_greatest|].
  unfold deals. induction results as [|r results IH]; [reflexivity|].
  cbn [List.filter]. destruct (at_most t r) eqn:Hr; [|exact IH].
  cbn [List.filter]. rewrite Hr, IH. reflexivity.
Qed.

Example deals_two_sources :
  let sweep := fst (check_all_prices (always "Now $287.50") (fun _ => 0)
                                     ["silver"] 0) in
  map price sweep = [28750; 28750] /\
  deals sweep 299 = sweep /\ deals sweep 250 = [].
Proof. repeat split. Qed.

(** ** Commands *)

Section BotFacts.

Variable net : nat -> string -> http_result.
Variable clock : nat -> Z.
Variable get_channel : value -> option Z.

Lemma triple_bind I {A B : Type} (c : M A) (f : A -> M B) Q R :
  triple I c Q -> (forall a, Q a -> triple I (f a) R) ->
  triple I (bind c f) R.
Proof.
  intros Hc Hf st Hst. unfold bind.
  destruct (Hc st Hst) as [Hst' Hq].
  destruct (c st) as [[a|e] st']; cbn [fst snd] in *.
  - apply (Hf a (Hq a eq_refl) st' Hst').
  - split; [exact Hst'|discriminate].
Qed.

Lemma triple_weaken I {A : Type} (c : M A) (Q R : A -> Prop) :
  triple I c Q -> (forall a, Q a -> R a) -> triple I c R.
Proof.
  intros Hc HQR st Hst. destruct (Hc st Hst) as [Hst' Hq].
  split; [exact Hst'|]. intros a Ha. apply HQR, Hq, Ha.
Qed.

Lemma triple_ret I {A : Type} (a : A) (Q : A -> Prop) :
  Q a -> triple I (ret a) Q.
Proof. intros Ha st Hst. split; [exact Hst|]. intros a' [= <-]. exact Ha. Qed.

Lemma triple_raise I {A : Type} e (Q : A -> Prop) : triple I (raise e) Q.
Proof. intros st Hst. split; [exact Hst|discriminate]. Qed.

Lemma triple_if I {A : Type} (b : bool) (c1 c2 : M A) Q :
  triple I c1 Q -> triple I c2 Q -> triple I (if b then c1 else c2) Q.
Proof. destruct b; auto. Qed.

(** A step that touches neither the history nor the messages. *)
Lemma triple_silent I {A : Type} (c : M A) :
  (forall st, I st -> I (snd (c st))) -> triple I c (fun _ => True).
Proof. intros H st Hst. split; [apply H, Hst|trivial]. Qed.

(** *** Prices stay within the window *)

Lemma lowest_elem_of results o : lowest results = Some o -> o ∈ results.
Proof.
  revert o. induction results as [|r results IH]; intros o; cbn [lowest];
    [discriminate|].
  destruct (lowest results) as [m|].
  - destruct (price m <? price r); intros [= <-].
    + apply list_elem_of_further, IH. reflexivity.
    + apply list_elem_of_here.
  - intros [= <-]. apply list_elem_of_here.
Qed.

Lemma reported_current_prices results :
  Forall in_range results ->
  Forall in_range (reported (CurrentPrices results (lowest results))).
Proof.
  intros Hall. cbn [reported]. apply Forall_app. split; [exact Hall|].
  destruct (lowest results) as [o|] eqn:Ho; [|constructor].
  constructor; [|constructor].
  apply lowest_elem_of in Ho. rewrite Forall_forall in Hall. auto.
Qed.

Lemma deals_in_range results t :
  Forall in_range results -> Forall in_range (deals results t).
Proof.
  intros Hall. apply Forall_forall. intros o Ho.
  apply deals_elem_of in Ho as [Ho _]. rewrite Forall_forall in Hall. auto.
Qed.

Lemma ok_get key : triple history_ok (get key) (fun _ => True).
Proof. apply triple_silent. auto. Qed.

Lemma ok_set key v : triple history_ok (set key v) (fun _ => True).
Proof.
  apply triple_silent. intros st Hst. unfold set, bind, store, save_config.
  cbn. destruct (writable st); exact Hst.
Qed.

Lemma ok_is_running : triple history_ok is_running (fun _ => True).
Proof. apply triple_silent. auto. Qed.

Lemma ok_loop_start : triple history_ok loop_start (fun _ => True).
Proof. apply triple_silent. auto. Qed.

Lemma ok_loop_restart : triple history_ok loop_restart (fun _ => True).
Proof. apply triple_silent. auto. Qed.

Lemma ok_number v : triple history_ok (number v) (fun _ => True).
Proof.
  unfold number. destruct (as_number v); [apply triple_ret|apply triple_raise].
  exact I.
Qed.

Lemma ok_color_list v : triple history_ok (color_list v) (fun _ => True).
Proof.
  unfold color_list.
  destruct (as_colors v); [apply triple_ret|apply triple_raise]. exact I.
Qed.

Lemma ok_send ch m :
  Forall in_range (reported m) -> triple history_ok (send ch m) (fun _ => True).
Proof.
  intros Hm st [Hh Ho]. split; [|trivial]. split; [exact Hh|].
  cbn. apply Forall_app. split; [exact Ho|]. constructor; [exact Hm|constructor].
Qed.

Lemma ok_run_sweep tracked :
  triple history_ok (run_sweep net clock tracked) (Forall in_range).
Proof.
  intros st Hst. unfold run_sweep, bind, color_list.
  destruct (as_colors tracked) as [l|]; cbv beta iota delta [ret raise].
  - pose proof (check_all_prices_in_range net clock l (requests st)) as Hr.
    destruct (check_all_prices net clock l (requests st)) as [results n].
    cbn [fst snd] in *. split; [exact Hst|]. intros a [= <-]. exact Hr.
  - split; [exact Hst|discriminate].
Qed.

Lemma ok_extend_history results :
  Forall in_range results ->
  triple history_ok (extend_history results) (fun _ => True).
Proof.
  intros Hr st [Hh Ho]. split; [|trivial]. split; [|exact Ho].
  cbn. apply Forall_app. split; assumption.
Qed.

Lemma ok_get_history : triple history_ok get_history (Forall in_range).
Proof.
  intros st Hst. split; [exact Hst|]. intros a [= <-]. apply Hst.
Qed.

Lemma ok_send_alerts ch t ds :
  Forall in_range ds ->
  triple history_ok (send_alerts ch t ds) (fun _ => True).
Proof.
  induction 1 as [|d ds Hd _ IH]; cbn [send_alerts].
  - apply triple_ret. exact I.
  - eapply triple_bind.
    + apply ok_send. cbn [reported]. constructor; [exact Hd|constructor].
    + intros _ _. eapply triple_bind; [apply ok_send; constructor|].
      intros _ _. exact IH.
Qed.

Create HintDb triple.

#[local] Hint Resolve ok_get ok_set ok_is_running ok_loop_start
  ok_loop_restart ok_number
  ok_color_list ok_run_sweep ok_get_history triple_raise : triple.

Lemma ok_skip : triple history_ok (ret ()) (fun _ => True).
Proof. apply triple_ret. exact I. Qed.

#[local] Hint Resolve ok_skip triple_if : triple.

Ltac triple_step :=
  cbv beta in *;
  lazymatch goal with
  | |- triple _ (bind (extend_history _) _) _ =>
      eapply triple_bind; [apply ok_extend_history; assumption|intros ? ?]
  | |- triple _ (bind (send _ _) _) _ =>
      eapply triple_bind; [apply ok_send; constructor|intros ? ?]
  | |- triple _ (bind _ _) _ =>
      eapply triple_bind; [solve [eauto with triple]|intros ? ?]
  | |- triple _ (if _ then _ else _) _ => apply triple_if
  | |- triple _ (match ?x with _ => _ end) _ => destruct x
  | |- triple _ (send _ _) _ => apply ok_send; cbn [reported]
  | |- triple _ (send_alerts _ _ _) _ => apply ok_send_alerts
  | |- triple _ _ _ => solve [eauto with triple]
  end.

Lemma history_ok_run c :
  triple history_ok (run net clock get_channel c) (fun _ => True).
Proof.
  destruct c; cbn [run];
    unfold on_ready, start_tracking, stop_tracking, set_price, check_now,
      set_colors, set_interval, show_history, price_check_loop;
    repeat triple_step;
    auto using Forall_nil, reported_current_prices, deals_in_range,
      Forall_drop.
  - apply (reported_current_prices _ ltac:(eassumption)).
  - apply Forall_drop. assumption.
Qed.

(** C6: in every state the bot can reach, each observation stored in the
    history and each observation a message reports (manual check, history
    listing, alert) has its price within [200, 600], both bounds included;
    so has every observation a sweep hands to the alert evaluation, and
    [extract_price] never answers a price outside the window. *)
Theorem reachable_prices_in_window st :
  reachable net clock get_channel st ->
  Forall in_range (price_history st) /\
  Forall (fun cm => Forall in_range (reported (snd cm))) (outbox st) /\
  (forall tracked n,
      Forall in_range (fst (check_all_prices net clock tracked n))) /\
  (forall r p, extract_price r = Some p -> 20000 <= p <= 60000).
Proof.
  intros Hreach.
  assert (history_ok st) as [Hh Ho].
  { induction Hreach as [f w st Hload|c st _ IH|f w st _ IH].
    - unfold load_config, fresh in Hload. cbn in Hload.
      destruct f as [d|].
      + injection Hload as <-. split; constructor.
      + unfold save_config in Hload. cbn in Hload.
        destruct w; [|discriminate].
        injection Hload as <-. split; constructor.
    - apply (history_ok_run c st IH).
    - exact IH. }
  split; [exact Hh|]. split; [exact Ho|].
  split; [apply check_all_prices_in_range|apply extract_price_plausible].
Qed.

End BotFacts.

Lemma reachable_prices_in_window_witness :
  let st := snd (run (always "$249.00") (fun _ => 0) (fun _ => Some 7) Tick
                     tracking_from_7) in
  reachable (always "$249.00") (fun _ => 0) (fun _ => Some 7) st /\
  map price (price_history st) =
    [24900; 24900; 24900; 24900; 24900; 24900; 24900] /\
  Forall in_range (price_history st).
Proof.
  assert (reachable (always "$249.00") (fun _ => 0) (fun _ => Some 7)
            (snd (run (always "$249.00") (fun _ => 0) (fun _ => Some 7) Tick
                      tracking_from_7))) as Hreach.
  { apply reach_run. unfold tracking_from_7.
    apply (reach_run _ _ _ (Start 7)).
    apply (reach_start _ _ _ None true). reflexivity. }
  split; [exact Hreach|]. split; [reflexivity|].
  exact (proj1 (reachable_prices_in_window _ _ _ _ Hreach)).
Defined.

(** *** Manual checks *)

(** A manual check leaves the history as it was, whatever it finds. *)
Lemma check_now_history net clock ctx st :
  price_history (snd (check_now net clock ctx st)) = price_history st.
Proof.
  unfold check_now, run_sweep, color_list, bind, send, get. cbn [fst snd].
  destruct (as_colors (data _ !! "tracked_colors")) as [l|];
    cbv beta iota delta [ret raise]; [|reflexivity].
  cbn [requests with_outbox].
  destruct (check_all_prices net clock l (requests st)) as [results n].
  destruct (bool_decide (results = [])); reflexivity.
Qed.

(** A manual check sends no alert: what it sends goes to the channel the
    command came from, and is the notice, and then the prices or the
    apology. *)
Lemma check_now_no_alert net clock ctx st :
  exists sent,
    outbox (snd (check_now net clock ctx st)) = (outbox st ++ sent)%list /\
    Forall (fun cm => fst cm = ctx /\ is_alert (snd cm) = false) sent.
Proof.
  unfold check_now, run_sweep, color_list, bind, send, get. cbn [fst snd].
  destruct (as_colors (data _ !! "tracked_colors")) as [l|];
    cbv beta iota delta [ret raise].
  - cbn [requests with_outbox].
    destruct (check_all_prices net clock l (requests st)) as [results n].
    destruct (bool_decide (results = [])); cbn [snd outbox with_outbox with_requests];
      rewrite <- app_assoc; eexists; (split; [reflexivity|]);
      repeat constructor.
  - cbn [snd outbox with_outbox]. eexists. split; [reflexivity|].
    repeat constructor.
Qed.

Lemma send_alerts_history ch t ds st :
  price_history (snd (send_alerts ch t ds st)) = price_history st.
Proof.
  revert st. induction ds as [|d ds IH]; intros st; [reflexivity|].
  cbn [send_alerts]. unfold bind at 1 2. unfold send at 1 2. cbn [fst snd].
  rewrite IH. reflexivity.
Qed.

(** A scheduled iteration that finds prices adds them to the history. *)
Lemma price_check_loop_history net clock get_channel st l :
  truthy (data st !! "tracking_enabled") = true ->
  as_colors (data st !! "tracked_colors") = Some l ->
  fst (check_all_prices net clock l (requests st)) <> [] ->
  price_history (snd (price_check_loop net clock get_channel st)) =
  (price_history st ++ fst (check_all_prices net clock l (requests st)))%list.
Proof.
  intros Hen Hl Hne.
  unfold price_check_loop, run_sweep, color_list, bind, get. cbn [fst snd].
  rewrite Hen. cbn [negb]. rewrite Hl. cbv beta iota delta [ret].
  destruct (check_all_prices net clock l (requests st)) as [results n].
  cbn [fst] in Hne. rewrite bool_decide_eq_false_2 by exact Hne.
  unfold extend_history, number.
  cbn [fst snd data price_history with_requests with_price_history].
  destruct (as_number (data st !! "target_price")) as [t|];
    cbv beta iota delta [ret raise]; [|reflexivity].
  destruct (bool_decide (deals results t = [])); [reflexivity|].
  cbv beta. cbn [data with_requests with_price_history].
  destruct (truthy (data st !! "alert_channel_id")); [|reflexivity].
  destruct (data st !! "alert_channel_id" ≫= get_channel) as [ch|];
    [|reflexivity].
  rewrite send_alerts_history. reflexivity.
Qed.

Lemma send_alerts_outbox ch t ds st :
  outbox (snd (send_alerts ch t ds st)) =
  (outbox st ++ alert_messages ch t ds)%list.
Proof.
  revert st. induction ds as [|d ds IH]; intros st.
  - cbn. rewrite app_nil_r. reflexivity.
  - cbn [send_alerts]. unfold bind at 1 2. unfold send at 1 2. cbn [fst snd].
    rewrite IH. cbn [outbox with_outbox alert_messages flat_map].
    rewrite <- !app_assoc. reflexivity.
Qed.

(** A scheduled iteration alerts the stored channel once for each deal of
    its sweep, in the order of the sweep, and sends nothing else. *)
Lemma price_check_loop_alerts net clock get_channel st l t ch :
  truthy (data st !! "tracking_enabled") = true ->
  as_colors (data st !! "tracked_colors") = Some l ->
  as_number (data st !! "target_price") = Some t ->
  truthy (data st !! "alert_channel_id") = true ->
  data st !! "alert_channel_id" ≫= get_channel = Some ch ->
  outbox (snd (price_check_loop net clock get_channel st)) =
  (outbox st
   ++ alert_messages ch t
        (deals (fst (check_all_prices net clock l (requests st))) t))%list.
Proof.
  intros Hen Hl Ht Hch Hget.
  unfold price_check_loop, run_sweep, color_list, bind, get. cbn [fst snd].
  rewrite Hen. cbn [negb]. rewrite Hl. cbv beta iota delta [ret].
  destruct (check_all_prices net clock l (requests st)) as [results n].
  cbn [fst].
  destruct (bool_decide (results = [])) eqn:Hres.
  - apply bool_decide_eq_true in Hres. subst results. cbn.
    rewrite app_nil_r. reflexivity.
  - unfold extend_history, number.
    cbn [fst snd data price_history with_requests with_price_history].
    rewrite Ht. cbv beta iota delta [ret].
    destruct (bool_decide (deals results t = [])) eqn:Hd.
    + apply bool_decide_eq_true in Hd. rewrite Hd. cbn.
      rewrite app_nil_r. reflexivity.
    + cbv beta. cbn [data with_requests with_price_history].
      rewrite Hch, Hget. rewrite send_alerts_outbox. reflexivity.
Qed.

(** C3, on the code: a manual check reports the prices it finds but does
    not add them to the history, where a scheduled iteration on the same
    state and pages does; neither the notice nor the report is an alert.
    Here every page reads $249.00, the configuration is the default one
    and tracking is on. *)
Theorem check_now_does_not_record :
  let net := always "$249.00" in
  let clock := fun _ : nat => 0 in
  let scheduled :=
    snd (price_check_loop net clock (fun _ => Some 7) tracking_from_7) in
  let manual := snd (check_now net clock 7 tracking_from_7) in
  price_history tracking_from_7 = [] /\
  map price (price_history scheduled) =
    [24900; 24900; 24900; 24900; 24900; 24900; 24900] /\
  price_history manual = [] /\
  (exists results low,
      last (outbox manual) = Some (7, CurrentPrices results low) /\
      results = price_history scheduled) /\
  Forall (fun cm => is_alert (snd cm) = false) (outbox manual).
Proof.
  cbv zeta. split; [reflexivity|]. split; [reflexivity|].
  split; [reflexivity|]. split.
  - eexists. eexists. split; reflexivity.
  - vm_compute. repeat constructor.
Qed.

(** *** Saving the configuration *)

Lemma set_saved key v st :
  writable st = true ->
  set key v st =
    (Ok (), with_file (Some (<[key := v]> (data st)))
                      (with_data (<[key := v]> (data st)) st)).
Proof.
  intros Hw. unfold set, bind, store, save_config. cbn. rewrite Hw.
  reflexivity.
Qed.




(** Each setter passes the failure on and sends no confirmation. *)
Lemma set_price_failed_save ctx p st :
  writable st = false -> Qle_bool 100 p = true -> Qle_bool p 600 = true ->
  fst (set_price ctx p st) = Raised IOError /\
  outbox (snd (set_price ctx p st)) = outbox st.
Proof.
  intros Hw Hlo Hhi. unfold set_price. rewrite Hlo, Hhi. cbn [negb orb].
  unfold set, bind, store, save_config. cbn. rewrite Hw. split; reflexivity.
Qed.

Lemma set_interval_failed_save ctx minutes st :
  writable st = false -> 10 <= minutes <= 1440 ->
  fst (set_interval ctx minutes st) = Raised IOError /\
  outbox (snd (set_interval ctx minutes st)) = outbox st.
Proof.
  intros Hw Hm. unfold set_interval.
  replace (minutes <? 10) with false by lia.
  replace (minutes >? 1440) with false by lia. cbn [orb].
  unfold set, bind, store, save_config. cbn. rewrite Hw. split; reflexivity.
Qed.

Lemma set_colors_failed_save ctx args st :
  writable st = false -> args <> [] ->
  Forall (fun c => lower c ∈ valid_colors) args ->
  fst (set_colors ctx args st) = Raised IOError /\
  outbox (snd (set_colors ctx args st)) = outbox st.
Proof.
  intros Hw Hne Hall. unfold set_colors.
  assert (List.filter (fun c => negb (bool_decide (c ∈ valid_colors)))
                      (map lower args) = []) as ->.
  { clear Hne. induction Hall as [|c args Hc _ IH]; [reflexivity|].
    cbn [map List.filter]. rewrite (bool_decide_eq_true_2 _ Hc). exact IH. }
  rewrite bool_decide_eq_true_2 by reflexivity. cbn [negb].
  rewrite bool_decide_eq_false_2 by (destruct args; [contradiction|discriminate]).
  unfold set, bind, store, save_config. cbn. rewrite Hw. split; reflexivity.
Qed.

Lemma stop_tracking_failed_save ctx st :
  writable st = false -> truthy (data st !! "tracking_enabled") = true ->
  fst (stop_tracking ctx st) = Raised IOError /\
  outbox (snd (stop_tracking ctx st)) = outbox st.
Proof.
  intros Hw Hen.
  split; unfold stop_tracking, bind at 1, get; cbn [fst snd];
    rewrite Hen; cbn [negb]; unfold set, bind, store, save_config; cbn;
    rewrite Hw; reflexivity.
Qed.

Lemma start_tracking_failed_save ctx st :
  writable st = false -> truthy (data st !! "tracking_enabled") = false ->
  fst (start_tracking ctx st) = Raised IOError /\
  outbox (snd (start_tracking ctx st)) = outbox st.
Proof.
  intros Hw Hen.
  split; unfold start_tracking, bind at 1, get; cbn [fst snd];
    rewrite Hen; unfold set, bind, store, save_config; cbn;
    rewrite Hw; reflexivity.
Qed.

(** *** Validation *)

Lemma invalid_colours_found args c :
  c ∈ args -> lower c ∉ valid_colors ->
  List.filter (fun c => negb (bool_decide (c ∈ valid_colors)))
              (map lower args) <> [].
Proof.
  intros Hc Hbad Hnil.
  assert (In (lower c)
            (List.filter (fun c => negb (bool_decide (c ∈ valid_colors)))
                         (map lower args))) as Hin.
  { apply filter_In. split.
    - apply in_map, list_elem_of_In, Hc.
    - rewrite bool_decide_eq_false_2 by exact Hbad. reflexivity. }
  rewrite Hnil in Hin. exact Hin.
Qed.



(** *** Stopping and starting *)

Section Frame.

Variable keys : list string.
Variable st0 : bot.

Let kept := settings_kept keys st0.

Lemma kept_refl : kept st0.
Proof. intros key _. split; [reflexivity|left; reflexivity]. Qed.

Lemma kept_set key v :
  key ∈ keys -> triple kept (set key v) (fun _ => True).
Proof.
  intros Hkey. apply triple_silent. intros st Hst k Hk.
  destruct (Hst k Hk) as [Hd Hp].
  assert (key <> k) as Hne by (intros ->; contradiction).
  unfold set, bind, store, save_config. cbn.
  destruct (writable st); cbn.
  - unfold persisted. cbn. rewrite lookup_insert_ne by exact Hne.
    split; [exact Hd|right; exact Hd].
  - rewrite lookup_insert_ne by exact Hne. split; [exact Hd|exact Hp].
Qed.

Lemma kept_get key : triple kept (get key) (fun _ => True).
Proof. apply triple_silent. auto. Qed.

Lemma kept_send ch m : triple kept (send ch m) (fun _ => True).
Proof. apply triple_silent. auto. Qed.

Lemma kept_is_running : triple kept is_running (fun _ => True).
Proof. apply triple_silent. auto. Qed.

Lemma kept_loop_start : triple kept loop_start (fun _ => True).
Proof. apply triple_silent. auto. Qed.

Lemma kept_skip : triple kept (ret ()) (fun _ => True).
Proof. apply triple_silent. auto. Qed.

Lemma kept_number v : triple kept (number v) (fun _ => True).
Proof.
  unfold number. destruct (as_number v); [apply triple_ret|apply triple_raise].
  exact I.
Qed.

Lemma kept_color_list v : triple kept (color_list v) (fun _ => True).
Proof.
  unfold color_list.
  destruct (as_colors v); [apply triple_ret|apply triple_raise]. exact I.
Qed.

Create HintDb kept.

#[local] Hint Resolve kept_get kept_send kept_is_running kept_loop_start
  kept_skip kept_number kept_color_list triple_if : kept.

Lemma kept_stop_tracking ctx :
  "tracking_enabled" ∈ keys ->
  triple kept (stop_tracking ctx) (fun _ => True).
Proof.
  intros Hk. unfold stop_tracking.
  eapply triple_bind; [apply kept_get|intros enabled _].
  apply triple_if; [apply kept_send|].
  eapply triple_bind; [apply kept_set, Hk|intros _ _]. apply kept_send.
Qed.

Lemma kept_start_tracking ctx :
  "tracking_enabled" ∈ keys -> "alert_channel_id" ∈ keys ->
  triple kept (start_tracking ctx) (fun _ => True).
Proof.
  intros Hk1 Hk2. unfold start_tracking.
  eapply triple_bind; [apply kept_get|intros enabled _].
  apply triple_if; [apply kept_send|].
  eapply triple_bind; [apply kept_set, Hk1|intros _ _].
  eapply triple_bind; [apply kept_set, Hk2|intros _ _].
  repeat (eapply triple_bind; [solve [eauto with kept]|intros ? _]).
  apply kept_send.
Qed.

End Frame.



(** *** The colour stealth *)

(** The colour stealth passes the validation of [!colors]. *)
Lemma set_colors_stealth ctx :
  set_colors ctx ["stealth"] =
  bind (set "tracked_colors" (VList ["stealth"]))
       (fun _ => send ctx (ColorsUpdated ["stealth"])).
Proof. reflexivity. Qed.

(** C10: [!colors stealth] passes validation and stores the list with the
    one colour stealth (confirming it when the save succeeds); no retailer
    lists that colour, so a sweep over tracked colours that are all
    stealth resolves no target, makes no request and answers no
    observation. *)
Theorem stealth_is_accepted_and_finds_nothing net clock ctx st tracked n :
  Forall (fun c => c = "stealth") tracked ->
  data (snd (set_colors ctx ["stealth"] st)) !! "tracked_colors" =
    Some (VList ["stealth"]) /\
  (writable st = true ->
   fst (set_colors ctx ["stealth"] st) = Ok () /\
   last (outbox (snd (set_colors ctx ["stealth"] st))) =
     Some (ctx, ColorsUpdated ["stealth"])) /\
  Forall (fun entry => "stealth" ∉ colors (snd entry)) retailers /\
  resolve_targets tracked = [] /\
  check_all_prices net clock tracked n = ([], n).
Proof.
  intros Hall.
  assert (resolve_targets tracked = []) as Hnone.
  { unfold resolve_targets.
    pose proof stealth_not_listed as Hno.
    induction Hno as [|entry entries Hentry _ IH]; [reflexivity|].
    cbn [flat_map]. rewrite (targets_of_stealth _ _ Hall Hentry). exact IH. }
  split; [|split; [|split; [exact stealth_not_listed|split; [exact Hnone|]]]].
  - rewrite set_colors_stealth.
    unfold set, bind, store, save_config, send. cbn.
    destruct (writable st); cbn; apply lookup_insert_eq.
  - intros Hw. rewrite set_colors_stealth.
    unfold set, bind, store, save_config, send. cbn.
    rewrite Hw. cbn. split; [reflexivity|]. apply last_snoc.
  - rewrite check_all_prices_targets, Hnone. reflexivity.
Qed.

Lemma stealth_is_accepted_and_finds_nothing_witness :
  Forall (fun c => c = "stealth") ["stealth"] /\
  check_all_prices (always "$249.00") (fun _ => 0) ["stealth"] 0 = ([], 0%nat) /\
  data (snd (set_colors 7 ["stealth"] tracking_from_7)) !! "tracked_colors" =
    Some (VList ["stealth"]).
Proof.
  assert (Forall (fun c => c = "stealth") ["stealth"]) as Hall
    by (repeat constructor).
  destruct (stealth_is_accepted_and_finds_nothing (always "$249.00")
              (fun _ => 0) 7 tracking_from_7 ["stealth"] 0%nat Hall)
    as (Hset & _ & _ & _ & Hsweep).
  split; [exact Hall|]. split; [exact Hsweep|exact Hset].
Defined.

(** * Further properties *)

(** ** The sweep, target by target *)

Section SweepFacts.

Variable net : nat -> string -> http_result.
Variable clock : nat -> Z.

Lemma fetch_target_step acc t :
  snd (fetch_target net clock acc t) = S (snd acc) /\
  (fst (fetch_target net clock acc t) = fst acc \/
   exists o, fst (fetch_target net clock acc t) = (fst acc ++ [o])%list /\
             origin o = target_origin t /\ timestamp o = clock (snd acc)).
Proof.
  unfold fetch_target, fetch_one. cbn [fst snd].
  destruct (extract_price (net (snd acc) (snd t))) as [p|];
    [|split; [reflexivity|left; reflexivity]].
  destruct (p =? 0); cbn [fst snd]; (split; [reflexivity|]);
    [left; reflexivity|].
  right. eexists. split; [reflexivity|]. split; reflexivity.
Qed.

(** Folding the fetch over a list of targets: one request for each, and
    the new observations follow the targets. *)
Lemma fold_fetch_target ts acc :
  exists new,
    fold_left (fetch_target net clock) ts acc =
      ((fst acc ++ new)%list, (snd acc + length ts)%nat) /\
    sublist (map origin new) (map target_origin ts) /\
    Forall (fun o => exists i, (snd acc <= i < snd acc + length ts)%nat /\
                               timestamp o = clock i) new.
Proof.
  revert acc. induction ts as [|t ts IH]; intros acc.
  - exists []. cbn. rewrite app_nil_r, Nat.add_0_r.
    split; [destruct acc; reflexivity|]. split; constructor.
  - cbn [fold_left].
    destruct (fetch_target_step acc t) as [Hn Hr].
    destruct (IH (fetch_target net clock acc t)) as (new & Hfold & Hsub & Hts).
    rewrite Hfold, Hn. cbn [length map].
    assert (Forall (fun o => exists i,
              (snd acc <= i < snd acc + S (length ts))%nat /\
              timestamp o = clock i) new) as Hts'.
    { eapply Forall_impl; [exact Hts|]. intros o (i & Hi & Ho).
      rewrite Hn in Hi. exists i. split; [lia|exact Ho]. }
    destruct Hr as [->|(o & -> & Ho & Hc)].
    + exists new. split; [f_equal; lia|].
      split; [apply sublist_cons; exact Hsub|exact Hts'].
    + exists (o :: new). split; [rewrite <- app_assoc; f_equal; lia|].
      split.
      * cbn [map]. rewrite Ho. apply sublist_skip. exact Hsub.
      * constructor; [|exact Hts'].
        exists (snd acc). split; [lia|exact Hc].
Qed.

(** X1: a sweep makes exactly one request for each resolved target,
    whatever the requests give back, and it answers at most one
    observation for each. *)
Theorem sweep_one_request_per_target tracked n :
  snd (check_all_prices net clock tracked n) =
    (n + length (resolve_targets tracked))%nat /\
  (length (fst (check_all_prices net clock tracked n)) <=
   length (resolve_targets tracked))%nat.
Proof.
  rewrite check_all_prices_targets.
  destruct (fold_fetch_target (resolve_targets tracked) ([], n))
    as (new & -> & Hsub & _).
  cbn [fst snd app]. split; [reflexivity|].
  apply sublist_length in Hsub. rewrite !length_map in Hsub. exact Hsub.
Qed.

(** Where a resolved target comes from. *)
Lemma resolve_targets_origin tracked t :
  t ∈ resolve_targets tracked ->
  exists entry,
    entry ∈ retailers /\ fst (fst t) = fst entry /\
    snd (fst t) ∈ tracked /\ snd (fst t) ∈ colors (snd entry) /\
    snd t = url_of entry (snd (fst t)) /\ snd t <> "".
Proof.
  unfold resolve_targets. rewrite list_elem_of_In, in_flat_map.
  intros (entry & Hentry & Ht). apply list_elem_of_In in Hentry.
  rewrite <- list_elem_of_In in Ht.
  rewrite (targets_of_tracked_order tracked entry Hentry) in Ht.
  unfold tracked_order_targets in Ht.
  apply list_elem_of_In, in_map_iff in Ht as (c & <- & Hc).
  apply filter_In in Hc as [Hc Hlisted].
  apply bool_decide_eq_true in Hlisted. apply list_elem_of_In in Hc.
  exists entry. cbn [fst snd].
  destruct (listed_colour_has_url entry c Hentry Hlisted) as [_ Hurl].
  repeat split; assumption.
Qed.

Lemma retailer_of_entry entry :
  entry ∈ retailers -> retailer_of (fst entry) = snd entry.
Proof.
  unfold retailers. intros He.
  repeat (apply elem_of_cons in He as [->|He]); try reflexivity.
  apply elem_of_nil in He. contradiction.
Qed.

(** X2: the observations of a sweep come in the order of its targets, at
    most one for each; every observation is for a tracked colour that its
    retailer lists, carries that retailer's name and its non-empty URL for
    the colour, and is stamped with the clock of one of the sweep's
    requests. *)
Theorem sweep_observations_follow_targets tracked n :
  let results := fst (check_all_prices net clock tracked n) in
  sublist (map origin results) (map target_origin (resolve_targets tracked)) /\
  Forall (fun o =>
            color o ∈ tracked /\ url o <> "" /\
            (exists entry, entry ∈ retailers /\
                           retailer o = name (snd entry) /\
                           color o ∈ colors (snd entry) /\
                           url o = url_of entry (color o)) /\
            (exists i, (n <= i < n + length (resolve_targets tracked))%nat /\
                       timestamp o = clock i))
         results.
Proof.
  cbv zeta. rewrite check_all_prices_targets.
  destruct (fold_fetch_target (resolve_targets tracked) ([], n))
    as (new & -> & Hsub & Hts).
  cbn [fst snd app] in *. split; [exact Hsub|].
  apply Forall_forall. intros o Ho.
  assert (origin o ∈ map target_origin (resolve_targets tracked)) as Horigin.
  { eapply elem_of_sublist; [|exact Hsub].
    apply list_elem_of_In, in_map, list_elem_of_In, Ho. }
  apply list_elem_of_In, in_map_iff in Horigin as (t & Ht & Hin).
  apply list_elem_of_In, resolve_targets_origin in Hin
    as (entry & Hentry & Hkey & Htracked & Hlisted & Hurl & Hne).
  unfold origin, target_origin in Ht. injection Ht as Hname Hcolor Hu.
  rewrite Hkey, (retailer_of_entry entry Hentry) in Hname.
  rewrite Forall_forall in Hts.
  rewrite <- Hcolor, <- Hu.
  split; [exact Htracked|]. split; [exact Hne|].
  split; [|exact (Hts o Ho)].
  exists entry. repeat split; [exact Hentry|symmetry; exact Hname|
                               exact Hlisted|exact Hurl].
Qed.

End SweepFacts.

(** ** Reading back a printed price *)

Lemma digit_val_digit_char d :
  0 <= d <= 9 -> digit_val (digit_char d) = Some d.
Proof.
  intros Hd.
  assert (d = 0 \/ d = 1 \/ d = 2 \/ d = 3 \/ d = 4 \/ d = 5 \/ d = 6 \/
          d = 7 \/ d = 8 \/ d = 9) as Hcases by lia.
  repeat (destruct Hcases as [->|Hcases]; [reflexivity|]).
  subst d. reflexivity.
Qed.

Lemma digit_char_not_dot d : 0 <= d <= 9 -> digit_char d <> "."%char.
Proof.
  intros Hd Heq.
  pose proof (digit_val_digit_char d Hd) as Hv. rewrite Heq in Hv.
  discriminate Hv.
Qed.

Lemma append_cons a s t : (String a s ++ t)%string = String a (s ++ t).
Proof. reflexivity. Qed.

Lemma money_append c post :
  (money c ++ post)%string =
  String "$"
    (String (digit_char (c / 10000))
       (String (digit_char (c / 1000 mod 10))
          (String (digit_char (c / 100 mod 10))
             (String "."
                (String (digit_char (c / 10 mod 10))
                   (String (digit_char (c mod 10)) post)))))).
Proof. reflexivity. Qed.

Lemma dollar_pattern_money c post :
  10000 <= c <= 99999 -> dollar_pattern (money c ++ post) = Some c.
Proof.
  intros Hc. rewrite money_append. unfold dollar_pattern.
  cbn [Ascii.eqb Bool.eqb]. unfold amount_then, three_digits.
  assert (forall x, 0 <= x mod 10 <= 9) as Hmod.
  { intros x. pose proof (Z.mod_pos_bound x 10 ltac:(lia)). lia. }
  assert (0 <= c / 10000 <= 9) as Hdiv.
  { split; [apply Z.div_pos; lia|].
    assert (c / 10000 < 10) by (apply Z.div_lt_upper_bound; lia). lia. }
  rewrite (digit_val_digit_char _ Hdiv), !(digit_val_digit_char _ (Hmod _)).
  unfold fraction. cbn [Ascii.eqb Bool.eqb].
  rewrite !(digit_val_digit_char _ (Hmod _)).
  f_equal.
  pose proof (Z.div_mod c 10 ltac:(lia)).
  pose proof (Z.div_mod (c / 10) 10 ltac:(lia)).
  pose proof (Z.div_mod (c / 100) 10 ltac:(lia)).
  pose proof (Z.div_mod (c / 1000) 10 ltac:(lia)).
  rewrite (Z.div_div c 10 10) in * by lia.
  rewrite (Z.div_div c 100 10) in * by lia.
  rewrite (Z.div_div c 1000 10) in * by lia.
  change (10 * 10) with 100 in *. change (100 * 10) with 1000 in *.
  change (1000 * 10) with 10000 in *.
  assert (c / 10000 mod 10 = c / 10000) as Htop.
  { apply Z.mod_small. split; [apply Z.div_pos; lia|].
    apply Z.div_lt_upper_bound; lia. }
  lia.
Qed.

Lemma re_search_dollar_after pre rest :
  dollar_free pre = true ->
  re_search dollar_pattern (pre ++ rest) = re_search dollar_pattern rest.
Proof.
  induction pre as [|ch pre IH]; intros Hfree; [reflexivity|].
  cbn [dollar_free] in Hfree. apply andb_true_iff in Hfree as [Hch Hfree].
  rewrite append_cons. cbn [re_search]. unfold dollar_pattern at 1.
  apply negb_true_iff in Hch. rewrite Hch. apply IH, Hfree.
Qed.

(** X3: the extractor reads back what the bot prints.  For a price of
    three integer digits printed as [$ddd.dd], between any text before
    that holds no dollar sign and any text after: a price within
    [200, 600] is answered as it is; a price outside is not answered, and
    nothing is, unless the page has a USD amount. *)
Theorem extract_price_reads_money pre post c :
  10000 <= c <= 99999 -> dollar_free pre = true ->
  let page := Response 200 (pre ++ money c ++ post) in
  (20000 <= c <= 60000 -> extract_price page = Some c) /\
  (c < 20000 \/ 60000 < c ->
   re_search usd_pattern (pre ++ money c ++ post) = None ->
   extract_price page = None).
Proof.
  intros Hc Hfree page. unfold page.
  cbn [extract_price Z.eqb Pos.eqb negb patterns scan_patterns].
  rewrite (re_search_dollar_after pre _ Hfree).
  assert (re_search dollar_pattern (money c ++ post) = Some c) as ->.
  { pose proof (dollar_pattern_money c post Hc) as Hm.
    rewrite money_append in *. cbn [re_search]. rewrite Hm. reflexivity. }
  unfold plausible. split.
  - intros Hwin.
    replace (20000 <=? c) with true by lia.
    replace (c <=? 60000) with true by lia. reflexivity.
  - intros Hout Husd. rewrite Husd.
    destruct Hout; [replace (20000 <=? c) with false by lia|
                    replace (c <=? 60000) with false by lia];
      rewrite ?andb_false_r; reflexivity.
Qed.

Lemma extract_price_reads_money_witness :
  extract_price (Response 200 ("Was 999 USD, now " ++ money 34999 ++ "!"))
    = Some 34999.
Proof.
  apply (extract_price_reads_money "Was 999 USD, now " "!" 34999);
    [lia|reflexivity|lia].
Defined.

(** ** The best price and the recent history *)

(** X4: the best price of a manual check is a cheapest observation of the
    sweep, and the first of those: every observation before it costs
    strictly more, none costs less.  There is none only for an empty
    sweep. *)
Theorem lowest_is_first_cheapest results :
  match lowest results with
  | Some m =>
      exists before after,
        results = (before ++ m :: after)%list /\
        Forall (fun o => price m < price o) before /\
        Forall (fun o => price m <= price o) after
  | None => results = []
  end.
Proof.
  induction results as [|r results IH]; [reflexivity|].
  cbn [lowest]. destruct (lowest results) as [m|].
  - destruct IH as (before & after & -> & Hb & Ha).
    destruct (price m <? price r) eqn:Hlt.
    + apply Z.ltb_lt in Hlt. exists (r :: before), after.
      split; [reflexivity|]. split; [constructor; assumption|exact Ha].
    + apply Z.ltb_ge in Hlt. exists [], (before ++ m :: after)%list.
      split; [reflexivity|]. split; [constructor|].
      apply Forall_app. split.
      * eapply Forall_impl; [exact Hb|]. intros o Ho. cbv beta in *. lia.
      * constructor; [exact Hlt|].
        eapply Forall_impl; [exact Ha|]. intros o Ho. cbv beta in *. lia.
  - subst results. exists [], []. split; [reflexivity|].
    split; constructor.
Qed.

(** X5: the history listing shows the latest entries in the order they
    were recorded: all of them up to ten, the last ten beyond. *)
Theorem last10_is_recent_suffix h :
  length (last10 h) = Nat.min (length h) 10 /\
  (exists older, h = (older ++ last10 h)%list) /\
  ((length h <= 10)%nat -> last10 h = h).
Proof.
  unfold last10. split; [rewrite length_drop; lia|]. split.
  - exists (take (length h - 10) h). symmetry. apply take_drop.
  - intros Hshort. replace (length h - 10)%nat with 0%nat by lia.
    reflexivity.
Qed.

(** ** What each command touches *)

Lemma send_alerts_exact ch t ds st :
  send_alerts ch t ds st =
  (Ok (), with_outbox (outbox st ++ alert_messages ch t ds)%list st).
Proof.
  revert st. induction ds as [|d ds IH]; intros st.
  - cbn. rewrite app_nil_r. destruct st; reflexivity.
  - cbn [send_alerts]. unfold bind at 1 2. unfold send at 1 2.
    rewrite IH. cbn [outbox with_outbox alert_messages flat_map].
    unfold with_outbox. cbn. rewrite <- !app_assoc. reflexivity.
Qed.

Ltac unfold_commands :=
  unfold run, on_ready, start_tracking, stop_tracking, set_price, check_now,
    set_colors, set_interval, show_history, price_check_loop, run_sweep,
    color_list, number, set, store, save_config, get, send, is_running,
    loop_start, loop_restart, extend_history, get_history, bind, ret, raise,
    with_data, with_file, with_writable, with_price_history,
    with_loop_running, with_outbox, with_requests in *.

Ltac crunch :=
  unfold_commands;
  cbn [fst snd data file writable price_history loop_running outbox
       requests negb] in *;
  repeat (case_match; simplify_eq;
          cbn [fst snd data file writable price_history loop_running outbox
               requests negb] in *).

Ltac project :=
  cbn [fst snd data file writable price_history loop_running outbox
       requests negb] in *.

Section RunFacts.

Variable net : nat -> string -> http_result.
Variable clock : nat -> Z.
Variable get_channel : value -> option Z.

(** One iteration of the loop, case by case. *)
Lemma price_check_loop_cases st :
  let tick := price_check_loop net clock get_channel st in
  if truthy (data st !! "tracking_enabled") then
    match as_colors (data st !! "tracked_colors") with
    | None => tick = (Raised TypeError, st)
    | Some l =>
        let results := fst (check_all_prices net clock l (requests st)) in
        let n := snd (check_all_prices net clock l (requests st)) in
        if bool_decide (results = []) then tick = (Ok (), with_requests n st)
        else
          let recorded :=
            with_price_history (price_history st ++ results)%list
                               (with_requests n st) in
          match as_number (data st !! "target_price") with
          | None => tick = (Raised TypeError, recorded)
          | Some t =>
              match data st !! "alert_channel_id" ≫= get_channel with
              | Some ch =>
                  if truthy (data st !! "alert_channel_id") then
                    tick = (Ok (), with_outbox
                                     (outbox st
                                      ++ alert_messages ch t (deals results t))%list
                                     recorded)
                  else tick = (Ok (), recorded)
              | None => tick = (Ok (), recorded)
              end
          end
    end
  else tick = (Ok (), st).
Proof.
  cbv zeta.
  destruct (truthy (data st !! "tracking_enabled")) eqn:Hen.
  2: { unfold price_check_loop, bind, get. cbn [fst snd]. rewrite Hen.
       reflexivity. }
  destruct (as_colors (data st !! "tracked_colors")) as [l|] eqn:Hl.
  2: { unfold price_check_loop, run_sweep, color_list, bind, get.
       cbn [fst snd]. rewrite Hen. cbn [negb]. rewrite Hl. reflexivity. }
  destruct (check_all_prices net clock l (requests st)) as [results n]
    eqn:Hsweep.
  cbn [fst snd].
  assert (price_check_loop net clock get_channel st =
          (if bool_decide (results = []) then ret ()
           else
             bind (extend_history results)
               (fun _ =>
                  bind (get "target_price")
                    (fun target_price =>
                       bind (number target_price)
                         (fun threshold =>
                            if bool_decide (deals results threshold = [])
                            then ret ()
                            else
                              bind (get "alert_channel_id")
                                (fun channel_id =>
                                   if truthy channel_id then
                                     match channel_id ≫= get_channel with
                                     | Some ch =>
                                         send_alerts ch threshold
                                           (deals results threshold)
                                     | None => ret ()
                                     end
                                   else ret ())))))
            (with_requests n st)) as ->.
  { unfold price_check_loop, run_sweep, color_list.
    unfold bind at 1. unfold get at 1. cbn [fst snd]. rewrite Hen.
    cbn [negb]. unfold bind at 1. unfold get at 1. cbn [fst snd].
    unfold bind at 1. unfold bind at 1. rewrite Hl.
    cbv beta iota delta [ret]. rewrite Hsweep. reflexivity. }
  destruct (bool_decide (results = [])); [reflexivity|].
  unfold bind, extend_history, number, get.
  cbn [fst snd data price_history with_requests with_price_history].
  destruct (as_number (data st !! "target_price")) as [t|];
    cbv beta iota delta [ret raise]; [|reflexivity].
  cbn [data with_requests with_price_history].
  destruct (bool_decide (deals results t = [])) eqn:Hdeals.
  - apply bool_decide_eq_true in Hdeals. rewrite Hdeals.
    cbn [alert_messages flat_map]. rewrite app_nil_r.
    destruct (data st !! "alert_channel_id" ≫= get_channel);
      [destruct (truthy (data st !! "alert_channel_id"))|];
      destruct st; reflexivity.
  - change (data (with_price_history (price_history st ++ results)
                                     (with_requests n st)))
      with (data st).
    destruct (truthy (data st !! "alert_channel_id"));
      destruct (data st !! "alert_channel_id" ≫= get_channel);
      try reflexivity.
    rewrite send_alerts_exact. reflexivity.
Qed.

(** A manual check, case by case. *)
Lemma check_now_cases ctx st :
  let check := check_now net clock ctx st in
  let noticed := with_outbox (outbox st ++ [(ctx, Checking)])%list st in
  match as_colors (data st !! "tracked_colors") with
  | None => check = (Raised TypeError, noticed)
  | Some l =>
      let results := fst (check_all_prices net clock l (requests st)) in
      let n := snd (check_all_prices net clock l (requests st)) in
      check =
        (Ok (),
         with_outbox
           (outbox st
            ++ [(ctx, Checking);
                (ctx, if bool_decide (results = []) then NoPrices
                      else CurrentPrices results (lowest results))])%list
           (with_requests n st))
  end.
Proof.
  cbv zeta. unfold check_now, run_sweep, color_list, bind, send, get.
  cbn [fst snd data requests with_outbox].
  destruct (as_colors (data st !! "tracked_colors")) as [l|];
    cbv beta iota delta [ret raise]; [|reflexivity].
  cbn [requests with_outbox].
  destruct (check_all_prices net clock l (requests st)) as [results n].
  cbn [fst snd].
  destruct (bool_decide (results = []));
    unfold with_outbox, with_requests; cbn; rewrite <- app_assoc;
    reflexivity.
Qed.

Lemma check_all_prices_counts l n :
  snd (check_all_prices net clock l n) =
  (n + length (resolve_targets l))%nat.
Proof.
  rewrite check_all_prices_targets.
  destruct (fold_fetch_target net clock (resolve_targets l) ([], n))
    as (new & -> & _). reflexivity.
Qed.

Ltac tick_cases st :=
  let H := fresh "Htick" in
  pose proof (price_check_loop_cases st) as H; cbv zeta in H;
  repeat case_match; rewrite H; clear H.

Ltac check_cases ctx st :=
  let H := fresh "Hcheck" in
  pose proof (check_now_cases ctx st) as H; cbv zeta in H;
  repeat case_match; rewrite H; clear H.

(** X6: no command reaches into the configuration beyond its own keys:
    a key that is not among those the command writes reads in memory as
    before, whether the command succeeded, refused or raised. *)
Theorem commands_write_only_their_keys c st key :
  key ∉ written_keys c ->
  data (snd (run net clock get_channel c st)) !! key = data st !! key.
Proof.
  intros Hkey. destruct c; cbn [run written_keys] in Hkey |- *;
    repeat (apply not_elem_of_cons in Hkey as [? Hkey]);
    try (check_cases ctx st; reflexivity);
    try (tick_cases st; reflexivity);
    crunch; rewrite ?lookup_insert_ne by congruence; reflexivity.
Qed.

(** X7: the history only grows, and only a scheduled iteration makes it
    grow; only a manual check and a scheduled iteration ask the retailers,
    and each asks once for every target of the tracked colours. *)
Theorem history_grows_only_by_the_loop c st :
  let st' := snd (run net clock get_channel c st) in
  (exists added, price_history st' = (price_history st ++ added)%list) /\
  (c <> Tick -> price_history st' = price_history st) /\
  (sweeps c = false -> requests st' = requests st) /\
  (sweeps c = true ->
   requests st' = requests st \/
   exists l, as_colors (data st !! "tracked_colors") = Some l /\
             requests st' =
               (requests st + length (resolve_targets l))%nat).
Proof.
  cbv zeta. destruct c; cbn [run sweeps];
    [crunch|crunch|crunch|crunch|check_cases ctx st|crunch|crunch|crunch|
     tick_cases st];
    cbn [snd price_history requests with_outbox with_requests
         with_price_history];
    rewrite ?check_all_prices_counts;
    (split; [first [exists []; rewrite app_nil_r; reflexivity
                   |eexists; reflexivity]|]);
    (split; [first [reflexivity|intros Hc; contradiction]|]);
    (split; [first [reflexivity|discriminate]|]);
    first [discriminate|intros _; left; reflexivity|intros _; right; eauto].
Qed.

(** X8: the configuration in memory and the file part ways only through a
    failed write: from a state where they agree, a command that does not
    raise the error of the write leaves them in agreement. *)
Theorem commands_keep_in_sync c st :
  in_sync st ->
  fst (run net clock get_channel c st) <> Raised IOError ->
  in_sync (snd (run net clock get_channel c st)).
Proof.
  unfold in_sync. intros Hsync. destruct c; cbn [run].
  5: { check_cases ctx st; intros _; exact Hsync. }
  8: { tick_cases st; intros _; exact Hsync. }
  all: crunch; intros Hok; try exact Hsync; try reflexivity;
    try congruence.
Qed.

End RunFacts.


(** X10: a restart.  From a state whose file agrees with memory, the
    process started again has the same configuration, runs the loop
    exactly if tracking is enabled, has written nothing, and has lost the
    history. *)
Theorem restart_resumes_configuration st :
  in_sync st ->
  fst (restart st) = Ok () /\
  data (snd (restart st)) = data st /\
  file (snd (restart st)) = file st /\
  loop_running (snd (restart st)) = truthy (data st !! "tracking_enabled") /\
  price_history (snd (restart st)) = [] /\
  outbox (snd (restart st)) = [].
Proof.
  unfold in_sync, restart. intros Hsync.
  unfold bind, load_config, fresh, on_ready, get, is_running, loop_start,
    bind, ret. cbn. rewrite Hsync. cbn.
  destruct (truthy (data st !! "tracking_enabled")); cbn; repeat split.
Qed.

(** ** Settings stay within their bounds *)

Lemma accepted_price_bounds p :
  negb (Qle_bool 100 p) || negb (Qle_bool p 600) = false ->
  (100 <= p <= 600)%Q.
Proof.
  intros H. apply orb_false_iff in H as [Hlo Hhi].
  apply negb_false_iff in Hlo, Hhi.
  split; apply Qle_bool_iff; assumption.
Qed.

Lemma accepted_interval_bounds m :
  (m <? 10) || (m >? 1440) = false -> 10 <= m <= 1440.
Proof. intros H. apply orb_false_iff in H as [Hlo Hhi]. lia. Qed.

Lemma accepted_colours_valid l :
  List.filter (fun c => negb (bool_decide (c ∈ valid_colors))) l = [] ->
  Forall (fun c => c ∈ valid_colors) l.
Proof.
  induction l as [|c l IH]; cbn [List.filter]; [constructor|].
  destruct (bool_decide (c ∈ valid_colors)) eqn:Hc; cbn [negb];
    [|discriminate].
  intros Hrest. constructor; [apply bool_decide_eq_true in Hc; exact Hc|].
  apply IH, Hrest.
Qed.

Lemma well_formed_defaults : well_formed defaults.
Proof.
  unfold well_formed. repeat split.
  - exists 299%Q. split; [reflexivity|]. split; discriminate.
  - exists 60. split; [reflexivity|lia].
  - exists ["silver"; "black"; "gold"]. split; [reflexivity|].
    split; [discriminate|]. repeat constructor.
  - exists false. reflexivity.
  - left. reflexivity.
Qed.

Lemma well_formed_price d p :
  well_formed d -> (100 <= p <= 600)%Q ->
  well_formed (<["target_price" := VFloat p]> d).
Proof.
  unfold well_formed. intros (_ & Hm & Hl & Hb & Hch) Hp.
  rewrite lookup_insert_eq, !lookup_insert_ne by discriminate.
  refine (conj _ (conj _ (conj _ (conj _ _)))); eauto.
Qed.

Lemma well_formed_interval d m :
  well_formed d -> 10 <= m <= 1440 ->
  well_formed (<["check_interval" := VInt m]> d).
Proof.
  unfold well_formed. intros (Hp & _ & Hl & Hb & Hch) Hm.
  rewrite lookup_insert_eq, !lookup_insert_ne by discriminate.
  refine (conj _ (conj _ (conj _ (conj _ _)))); eauto.
Qed.

Lemma well_formed_colours d l :
  well_formed d -> l <> [] -> Forall (fun c => c ∈ valid_colors) l ->
  well_formed (<["tracked_colors" := VList l]> d).
Proof.
  unfold well_formed. intros (Hp & Hm & _ & Hb & Hch) Hne Hl.
  rewrite lookup_insert_eq, !lookup_insert_ne by discriminate.
  refine (conj _ (conj _ (conj _ (conj _ _)))); eauto.
Qed.

Lemma well_formed_enabled d b :
  well_formed d -> well_formed (<["tracking_enabled" := VBool b]> d).
Proof.
  unfold well_formed. intros (Hp & Hm & Hl & _ & Hch).
  rewrite lookup_insert_eq, !lookup_insert_ne by discriminate.
  refine (conj _ (conj _ (conj _ (conj _ _)))); eauto.
Qed.

Lemma well_formed_channel d ch :
  well_formed d -> well_formed (<["alert_channel_id" := VInt ch]> d).
Proof.
  unfold well_formed. intros (Hp & Hm & Hl & Hb & _).
  rewrite lookup_insert_eq, !lookup_insert_ne by discriminate.
  refine (conj _ (conj _ (conj _ (conj _ _)))); eauto.
Qed.

Section Bounds.

Variable net : nat -> string -> http_result.
Variable clock : nat -> Z.
Variable get_channel : value -> option Z.


(** ** How commands compose *)

(** X12: [!stop] does not stop the loop, it silences it: the loop runs on
    as before, and from the state [!stop] leaves, enabled before or not,
    saved or not, an iteration asks no retailer, records nothing and
    sends nothing. *)
Theorem stop_silences_the_loop ctx st :
  let stopped := snd (stop_tracking ctx st) in
  loop_running stopped = loop_running st /\
  price_check_loop net clock get_channel stopped = (Ok (), stopped).
Proof.
  cbv zeta.
  assert (truthy (data (snd (stop_tracking ctx st)) !! "tracking_enabled")
          = false /\
          loop_running (snd (stop_tracking ctx st)) = loop_running st)
    as [Hoff Hloop].
  { split; crunch; rewrite ?lookup_insert_eq;
      first [reflexivity|apply negb_true_iff; assumption]. }
  split; [exact Hloop|].
  pose proof (price_check_loop_cases net clock get_channel
                (snd (stop_tracking ctx st))) as Ht.
  cbv zeta in Ht. rewrite Hoff in Ht. exact Ht.
Qed.


(** X14: a new threshold rules the next iteration, saved or not: after an
    accepted [!setprice p], the alerts of the next iteration are those of
    its sweep's observations at or below [p]. *)
Theorem new_threshold_rules_next_alerts ctx p st l ch :
  Qle_bool 100 p = true -> Qle_bool p 600 = true ->
  truthy (data st !! "tracking_enabled") = true ->
  as_colors (data st !! "tracked_colors") = Some l ->
  truthy (data st !! "alert_channel_id") = true ->
  data st !! "alert_channel_id" ≫= get_channel = Some ch ->
  let priced := snd (set_price ctx p st) in
  outbox (snd (price_check_loop net clock get_channel priced)) =
  (outbox priced
   ++ alert_messages ch p
        (deals (fst (check_all_prices net clock l (requests st))) p))%list.
Proof.
  intros Hlo Hhi Hen Hl Hch Hget. cbv zeta.
  assert (data (snd (set_price ctx p st)) =
            <["target_price" := VFloat p]> (data st) /\
          requests (snd (set_price ctx p st)) = requests st) as [Hd Hr].
  { unfold set_price. rewrite Hlo, Hhi. cbn [negb orb].
    crunch; split; reflexivity. }
  rewrite <- Hr.
  apply price_check_loop_alerts; rewrite Hd;
    rewrite ?lookup_insert_ne by discriminate; try assumption.
  rewrite lookup_insert_eq. reflexivity.
Qed.

Lemma alert_messages_Forall (P : Z * message -> Prop) ch t ds :
  Forall (fun d => P (ch, PriceAlert d t)) ds -> P (ch, Everyone) ->
  Forall P (alert_messages ch t ds).
Proof.
  intros Hds He. induction Hds as [|d ds Hd _ IH]; [constructor|].
  cbn [alert_messages flat_map app]. repeat constructor; assumption.
Qed.

(** X15: a scheduled iteration sends nothing but alerts, and only to the
    channel the configuration names and the bot finds; every deal it
    alerts on is at or below the threshold it names and is in the history
    by then. *)
Theorem loop_sends_only_alerts st :
  let st' := snd (price_check_loop net clock get_channel st) in
  exists sent,
    outbox st' = (outbox st ++ sent)%list /\
    Forall (fun cm =>
              is_alert (snd cm) = true /\
              truthy (data st !! "alert_channel_id") = true /\
              data st !! "alert_channel_id" ≫= get_channel = Some (fst cm))
           sent /\
    Forall (fun cm => forall d t,
              snd cm = PriceAlert d t ->
              as_number (data st !! "target_price") = Some t /\
              qualifies t d /\ d ∈ price_history st')
           sent.
Proof.
  cbv zeta.
  pose proof (price_check_loop_cases net clock get_channel st) as Ht.
  cbv zeta in Ht.
  repeat case_match; rewrite Ht;
    cbn [snd outbox price_history with_outbox with_requests
         with_price_history];
    try (exists []; rewrite app_nil_r; repeat split; constructor).
  eexists. split; [reflexivity|]. split.
  - apply alert_messages_Forall; [|repeat split; assumption].
    apply Forall_forall. intros d _. repeat split; assumption.
  - apply alert_messages_Forall; [|intros d t' [=]].
    apply Forall_forall. intros d Hd d' t' [= <- <-].
    apply deals_elem_of in Hd as [Hin Hq].
    split; [reflexivity|]. split; [exact Hq|].
    apply elem_of_app. right. exact Hin.
Qed.


End Bounds.

(** X17: what is set is what is read, saved or not: after
    [config.set(key, v)], [config.get] answers [v] for that key and what
    it answered before for any other; when the write succeeds the file
    says the same. *)
Theorem set_then_get key v key' st :
  let st' := snd (set key v st) in
  fst (get key' st') =
    Ok (if decide (key' = key) then Some v else data st !! key') /\
  (writable st = true ->
   fst (set key v st) = Ok () /\
   persisted st' key' =
     (if decide (key' = key) then Some v else data st !! key')).
Proof.
  cbv zeta. unfold set, store, save_config, bind, get, persisted. cbn.
  destruct (decide (key' = key)) as [->|Hne].
  - split.
    + destruct (writable st); cbn; rewrite lookup_insert_eq; reflexivity.
    + intros ->. cbn. rewrite lookup_insert_eq. split; reflexivity.
  - split.
    + destruct (writable st); cbn; rewrite lookup_insert_ne by congruence;
        reflexivity.
    + intros ->. cbn. rewrite lookup_insert_ne by congruence.
      split; reflexivity.
Qed.

(** ** Instances *)

Lemma commands_write_only_their_keys_witness :
  let st' := snd (run (always "") (fun _ => 0) (fun _ => None)
                      (SetPrice 1 250) tracking_from_7) in
  ("tracked_colors" ∉ written_keys (SetPrice 1 250)) /\
  data st' !! "tracked_colors" = Some (VList ["silver"; "black"; "gold"]) /\
  data st' !! "target_price" = Some (VFloat 250).
Proof.
  cbv zeta.
  assert ("tracked_colors" ∉ written_keys (SetPrice 1 250)) as Hkey.
  { cbn [written_keys]. intros H.
    apply elem_of_cons in H as [H|H]; [discriminate H|].
    apply elem_of_nil in H. exact H. }
  split; [exact Hkey|]. split; [|reflexivity].
  rewrite (commands_write_only_their_keys (always "") (fun _ => 0)
             (fun _ => None) (SetPrice 1 250) tracking_from_7
             "tracked_colors" Hkey).
  reflexivity.
Defined.

Lemma commands_keep_in_sync_witness :
  let c := SetInterval 1 30 in
  let run_c := run (always "") (fun _ => 0) (fun _ => None) c tracking_from_7 in
  in_sync tracking_from_7 /\ fst run_c = Ok () /\ in_sync (snd run_c) /\
  persisted (snd run_c) "check_interval" = Some (VInt 30).
Proof.
  cbv zeta.
  assert (in_sync tracking_from_7) as Hsync by reflexivity.
  split; [exact Hsync|]. split; [reflexivity|]. split; [|reflexivity].
  apply (commands_keep_in_sync (always "") (fun _ => 0) (fun _ => None)
           (SetInterval 1 30) tracking_from_7 Hsync).
  vm_compute. discriminate.
Defined.

Lemma restart_resumes_configuration_witness :
  in_sync tracking_from_7 /\
  data (snd (restart tracking_from_7)) = data tracking_from_7 /\
  loop_running (snd (restart tracking_from_7)) = true.
Proof.
  assert (in_sync tracking_from_7) as Hsync by reflexivity.
  destruct (restart_resumes_configuration tracking_from_7 Hsync)
    as (_ & Hd & _ & Hl & _).
  split; [exact Hsync|]. split; [exact Hd|]. rewrite Hl. reflexivity.
Defined.



Lemma new_threshold_rules_next_alerts_witness :
  let net := always "$249.00" in
  let priced := snd (set_price 1 250 tracking_from_7) in
  length (outbox (snd (price_check_loop net (fun _ => 0) (fun _ => Some 7)
                                        priced))) =
  (length (outbox priced) + 14)%nat.
Proof.
  cbv zeta.
  rewrite (new_threshold_rules_next_alerts (always "$249.00") (fun _ => 0)
             (fun _ => Some 7) 1 250 tracking_from_7
             ["silver"; "black"; "gold"] 7
             eq_refl eq_refl eq_refl eq_refl eq_refl eq_refl).
  reflexivity.
Defined.
